(** * discord-mcp: the webhook client and its three tools

    A shallow embedding of the TypeScript sources of the Discord webhook
    MCP server: [types.ts], [constants.ts], [schemas.ts], [discord-api.ts]
    and the tool handlers of [index.ts].

    JavaScript values are a small inductive type, thrown exceptions are
    explicit completions, and the only effect of the program, the HTTP
    request, is logged by a writer monad whose answers come from a
    [Platform] record (the webhook URL, the URL parser, [fetch]). *)

From Stdlib Require Import String Ascii List ZArith NArith Bool Lia.
From Stdlib Require Import DecimalString DecimalN DecimalPos DecimalFacts.
Import ListNotations.

Local Open Scope list_scope.
Local Open Scope string_scope.
Set Warnings "-register-all".

(* ================================================================== *)
(** ** JavaScript values *)

(** Numbers.  A number is kept as the decimal JavaScript prints for it:
    an integer, or [m / 10^e] with [m] not a multiple of ten.  The
    rounding of long literals to IEEE doubles is outside the model; it
    leaves every integer below 2^53 and every literal of at most fifteen
    significant digits unchanged. *)
Inductive JsNumber : Type :=
| NumInt (z : Z)
| NumDec (m : Z) (e : positive).

Inductive JsValue : Type :=
| JsUndefined
| JsNull
| JsBool (b : bool)
| JsNum (n : JsNumber)
| JsStr (s : string)
| JsArr (items : list JsValue)
| JsObj (props : list (string * JsValue)).

(** A thrown value: an [Error] object (with its constructor name and its
    [message]) or any other value. *)
Inductive JsThrown : Type :=
| ErrorObj (name message : string)
| ThrownValue (v : JsValue).

(** The outcome of evaluating an expression or awaiting a promise. *)
Inductive Completion (A : Type) : Type :=
| Normal (a : A)
| Throw (e : JsThrown).
Arguments Normal {A} a.
Arguments Throw {A} e.

(** *** Strings

    A string is kept as the bytes of its UTF-8 encoding.  [js_length] is
    the JavaScript [length] (UTF-16 code units): a continuation byte
    counts for nothing, the first byte of a four byte sequence for two. *)
Definition units_of_byte (c : ascii) : N :=
  let n := N_of_ascii c in
  if (n <? 128)%N then 1
  else if (n <? 192)%N then 0
  else if (n <? 240)%N then 1
  else 2.

Fixpoint js_length (s : string) : N :=
  match s with
  | EmptyString => 0
  | String c r => units_of_byte c + js_length r
  end.

(** [a.length] of an array *)
Definition array_length {A} (l : list A) : N := N.of_nat (List.length l).

(** [s.startsWith(p)] *)
Fixpoint startsWith (s p : string) : bool :=
  match p with
  | EmptyString => true
  | String c p' =>
      match s with
      | EmptyString => false
      | String d s' => Ascii.eqb c d && startsWith s' p'
      end
  end.

Fixpoint join (sep : string) (l : list string) : string :=
  match l with
  | [] => ""
  | [x] => x
  | x :: r => x ++ sep ++ join sep r
  end.

Fixpoint repeat_string (n : nat) (s : string) : string :=
  match n with
  | O => ""
  | S k => s ++ repeat_string k s
  end.

Fixpoint rev_string (s acc : string) : string :=
  match s with
  | EmptyString => acc
  | String c r => rev_string r (String c acc)
  end.

Fixpoint drop_zeros (s : string) : string :=
  match s with
  | String c r => if Ascii.eqb c "0" then drop_zeros r else s
  | EmptyString => s
  end.

(** The digits of [s] without its trailing zeros. *)
Definition strip_trailing_zeros (s : string) : string :=
  rev_string (drop_zeros (rev_string s "")) "".

(** *** Number::toString *)

Definition digits_of_N (n : N) : string :=
  NilZero.string_of_uint (N.to_uint n).

Definition string_of_Z (z : Z) : string :=
  NilZero.string_of_int (Z.to_int z).

Definition sign_string (neg : bool) : string := if neg then "-" else "".

(** [d.ddd e±x] for the digits [ds] (no trailing zero) of a number
    whose decimal point stands after [n] digits. *)
Definition exponent_form (neg : bool) (ds : string) (n : Z) : string :=
  let x := (n - 1)%Z in
  sign_string neg ++
  match ds with
  | EmptyString => "0"
  | String d EmptyString => String d ""
  | String d r => String d ("." ++ r)
  end ++ "e" ++ (if (0 <=? x)%Z then "+" else "-") ++ digits_of_N (Z.abs_N x).

Definition Number_toString (x : JsNumber) : string :=
  match x with
  | NumInt z =>
      if (Z.abs z <? 10 ^ 21)%Z then string_of_Z z
      else
        let ds := digits_of_N (Z.abs_N z) in
        exponent_form (z <? 0)%Z (strip_trailing_zeros ds)
                      (Z.of_nat (String.length ds))
  | NumDec m e =>
      let ds := digits_of_N (Z.abs_N m) in
      let k := String.length ds in
      let n := (Z.of_nat k - Z.pos e)%Z in
      if ((0 <? n) && (n <=? 21))%Z then
        sign_string (m <? 0)%Z ++ substring 0 (Z.to_nat n) ds ++ "." ++
        substring (Z.to_nat n) (k - Z.to_nat n) ds
      else if ((-6 <? n) && (n <=? 0))%Z then
        sign_string (m <? 0)%Z ++ "0." ++ repeat_string (Z.to_nat (- n)) "0" ++ ds
      else exponent_form (m <? 0)%Z ds n
  end.

(** *** ToString, as applied by template literals and [String(v)] *)
Fixpoint ToString (v : JsValue) : string :=
  match v with
  | JsUndefined => "undefined"
  | JsNull => "null"
  | JsBool true => "true"
  | JsBool false => "false"
  | JsNum n => Number_toString n
  | JsStr s => s
  | JsArr items =>
      join ","
        ((fix elems (l : list JsValue) : list string :=
            match l with
            | [] => []
            | JsUndefined :: r => "" :: elems r
            | JsNull :: r => "" :: elems r
            | x :: r => ToString x :: elems r
            end) items)
  | JsObj _ => "[object Object]"
  end.

(** *** Truthiness *)
Definition truthy (v : JsValue) : bool :=
  match v with
  | JsUndefined | JsNull => false
  | JsBool b => b
  | JsNum (NumInt z) => negb (z =? 0)%Z
  | JsNum (NumDec _ _) => true
  | JsStr s => negb (s =? "")
  | JsArr _ | JsObj _ => true
  end.

(** *** Objects: own properties in insertion order *)
Definition JsProps := list (string * JsValue).

Fixpoint obj_get {A} (d : A) (props : list (string * A)) (k : string) : A :=
  match props with
  | [] => d
  | (k', v) :: r => if k' =? k then v else obj_get d r k
  end.

Fixpoint obj_has {A} (props : list (string * A)) (k : string) : bool :=
  match props with
  | [] => false
  | (k', _) :: r => (k' =? k) || obj_has r k
  end.

(** [o[k] = v]: an existing property keeps its place. *)
Fixpoint obj_set {A} (props : list (string * A)) (k : string) (v : A)
  : list (string * A) :=
  match props with
  | [] => [(k, v)]
  | (k', v') :: r =>
      if k' =? k then (k, v) :: r else (k', v') :: obj_set r k v
  end.

Definition keys {A} (props : list (string * A)) : list string :=
  map fst props.

(** [v.k] for a property name [k] that no built-in prototype defines
    (the program reads no other): reading from [undefined] or [null]
    throws, a primitive or an array has no such property. *)
Definition js_get (v : JsValue) (k : string) : Completion JsValue :=
  match v with
  | JsUndefined =>
      Throw (ErrorObj "TypeError"
               ("Cannot read properties of undefined (reading '" ++ k ++ "')"))
  | JsNull =>
      Throw (ErrorObj "TypeError"
               ("Cannot read properties of null (reading '" ++ k ++ "')"))
  | JsObj props => Normal (obj_get JsUndefined props k)
  | _ => Normal JsUndefined
  end.

(** [v?.k] *)
Definition js_get_opt (v : JsValue) (k : string) : JsValue :=
  match v with
  | JsObj props => obj_get JsUndefined props k
  | _ => JsUndefined
  end.


(* ================================================================== *)
(** ** JSON *)

(** Characters are compared by their codes. *)
Definition code (c : ascii) : N := N_of_ascii c.
Definition chr (n : N) : string := String (ascii_of_N n) "".

Definition DQUOTE : string := Eval cbv in chr 34.
Definition BACKSLASH : string := Eval cbv in chr 92.
Definition LF : string := Eval cbv in chr 10.

(** *** JSON.stringify *)

Definition hex_digit (n : N) : string :=
  if (n <? 10)%N then chr (48 + n) else chr (87 + n).

(** QuoteJSONString, one character: the quote, the backslash and the
    control characters are escaped, every other byte is copied. *)
Definition quote_char (c : ascii) : string :=
  let n := code c in
  if (n =? 34)%N then BACKSLASH ++ DQUOTE
  else if (n =? 92)%N then BACKSLASH ++ BACKSLASH
  else if (n =? 8)%N then BACKSLASH ++ "b"
  else if (n =? 9)%N then BACKSLASH ++ "t"
  else if (n =? 10)%N then BACKSLASH ++ "n"
  else if (n =? 12)%N then BACKSLASH ++ "f"
  else if (n =? 13)%N then BACKSLASH ++ "r"
  else if (n <? 32)%N then
    BACKSLASH ++ "u00" ++ hex_digit (n / 16) ++ hex_digit (n mod 16)
  else String c "".

Fixpoint quote_chars (s : string) : string :=
  match s with
  | EmptyString => ""
  | String c r => quote_char c ++ quote_chars r
  end.

Definition quote (s : string) : string :=
  DQUOTE ++ quote_chars s ++ DQUOTE.

(** SerializeJSONProperty on a value that is not [undefined]; inside an
    array [undefined] is written [null], inside an object a property
    whose value is [undefined] is left out. *)
Fixpoint stringify_value (v : JsValue) : string :=
  match v with
  | JsUndefined => "null"
  | JsNull => "null"
  | JsBool true => "true"
  | JsBool false => "false"
  | JsNum n => Number_toString n
  | JsStr s => quote s
  | JsArr items =>
      "[" ++ join ","
        ((fix elems (l : list JsValue) : list string :=
            match l with
            | [] => []
            | x :: r => stringify_value x :: elems r
            end) items) ++ "]"
  | JsObj props =>
      "{" ++ join ","
        ((fix members (l : list (string * JsValue)) : list string :=
            match l with
            | [] => []
            | (_, JsUndefined) :: r => members r
            | (k, x) :: r => (quote k ++ ":" ++ stringify_value x) :: members r
            end) props) ++ "}"
  end.

(** [JSON.stringify(v)]: [undefined] for [undefined]. *)
Definition JSON_stringify (v : JsValue) : option string :=
  match v with
  | JsUndefined => None
  | _ => Some (stringify_value v)
  end.

(** *** JSON.parse *)

Definition is_ws (c : ascii) : bool :=
  let n := code c in
  ((n =? 32) || (n =? 9) || (n =? 10) || (n =? 13))%N.

Fixpoint skip_ws (s : string) : string :=
  match s with
  | String c r => if is_ws c then skip_ws r else s
  | EmptyString => s
  end.

Definition is_digit (c : ascii) : bool :=
  let n := code c in ((48 <=? n) && (n <=? 57))%N.

Definition hex_val (c : ascii) : option N :=
  let n := code c in
  if ((48 <=? n) && (n <=? 57))%N then Some (n - 48)%N
  else if ((97 <=? n) && (n <=? 102))%N then Some (n - 87)%N
  else if ((65 <=? n) && (n <=? 70))%N then Some (n - 55)%N
  else None.

Definition hex4 (a b c d : ascii) : option N :=
  match hex_val a, hex_val b, hex_val c, hex_val d with
  | Some x, Some y, Some z, Some w => Some (((x * 16 + y) * 16 + z) * 16 + w)%N
  | _, _, _, _ => None
  end.

(** The UTF-8 bytes of a code point (a lone surrogate is written on
    three bytes like any other code unit). *)
Definition utf8_encode (cp : N) : string :=
  if (cp <? 128)%N then chr cp
  else if (cp <? 2048)%N then
    chr (192 + cp / 64) ++ chr (128 + cp mod 64)
  else if (cp <? 65536)%N then
    chr (224 + cp / 4096) ++ chr (128 + (cp / 64) mod 64) ++ chr (128 + cp mod 64)
  else
    chr (240 + cp / 262144) ++ chr (128 + (cp / 4096) mod 64) ++
    chr (128 + (cp / 64) mod 64) ++ chr (128 + cp mod 64).

Definition is_high_surrogate (u : N) : bool := ((55296 <=? u) && (u <? 56320))%N.
Definition is_low_surrogate (u : N) : bool := ((56320 <=? u) && (u <? 57344))%N.
Definition surrogate_pair (hi lo : N) : N :=
  (65536 + (hi - 55296) * 1024 + (lo - 56320))%N.

Definition simple_escape (c : ascii) : option string :=
  let n := code c in
  if (n =? 34)%N then Some DQUOTE
  else if (n =? 92)%N then Some BACKSLASH
  else if (n =? 47)%N then Some "/"
  else if (n =? 98)%N then Some (chr 8)
  else if (n =? 102)%N then Some (chr 12)
  else if (n =? 110)%N then Some (chr 10)
  else if (n =? 114)%N then Some (chr 13)
  else if (n =? 116)%N then Some (chr 9)
  else None.

Definition prepend (p : string) (r : option (string * string))
  : option (string * string) :=
  match r with
  | Some (s, rest) => Some (p ++ s, rest)
  | None => None
  end.

(** The characters of a string literal after its opening quote: the
    decoded string and the text after the closing quote. *)
Fixpoint parse_chars (s : string) : option (string * string) :=
  match s with
  | EmptyString => None
  | String c r =>
      if (code c =? 34)%N then Some ("", r)
      else if (code c =? 92)%N then
        match r with
        | EmptyString => None
        | String e r1 =>
            match simple_escape e with
            | Some b => prepend b (parse_chars r1)
            | None =>
                if (code e =? 117)%N then
                  match r1 with
                  | String h1 (String h2 (String h3 (String h4 r2))) =>
                      match hex4 h1 h2 h3 h4 with
                      | None => None
                      | Some hi =>
                          if is_high_surrogate hi then
                            match r2 with
                            | String b1 (String b2 (String l1 (String l2
                                (String l3 (String l4 r3))))) =>
                                match hex4 l1 l2 l3 l4 with
                                | Some lo =>
                                    if (code b1 =? 92)%N && (code b2 =? 117)%N
                                       && is_low_surrogate lo
                                    then prepend
                                           (utf8_encode (surrogate_pair hi lo))
                                           (parse_chars r3)
                                    else prepend (utf8_encode hi) (parse_chars r2)
                                | None => prepend (utf8_encode hi) (parse_chars r2)
                                end
                            | _ => prepend (utf8_encode hi) (parse_chars r2)
                            end
                          else prepend (utf8_encode hi) (parse_chars r2)
                      end
                  | _ => None
                  end
                else None
            end
        end
      else if (code c <? 32)%N then None
      else prepend (String c "") (parse_chars r)
  end.

(** The longest prefix of digits, and the rest. *)
Fixpoint span_digits (s : string) : string * string :=
  match s with
  | String c r =>
      if is_digit c then let (d, rest) := span_digits r in (String c d, rest)
      else ("", s)
  | EmptyString => ("", s)
  end.

Definition digits_value (ds : string) : N :=
  match NilEmpty.uint_of_string ds with
  | Some u => N.of_uint u
  | None => 0
  end.

Definition with_sign (neg : bool) (z : Z) : Z := if neg then (- z)%Z else z.

(** The number written [ip.fp e ex]: an integer literal is its value,
    any other literal is reduced to its normal form. *)
Definition make_number (neg : bool) (ip : string) (fp : option string)
    (ex : option Z) : JsNumber :=
  match fp, ex with
  | None, None => NumInt (with_sign neg (Z.of_N (digits_value ip)))
  | _, _ =>
      let f := match fp with Some f => f | None => "" end in
      let x := match ex with Some x => x | None => 0%Z end in
      let ds := ip ++ f in
      let ds' := strip_trailing_zeros ds in
      let m := Z.of_N (digits_value ds') in
      let e := (x - Z.of_nat (String.length f)
                + Z.of_nat (String.length ds - String.length ds'))%Z in
      if (m =? 0)%Z then NumInt 0
      else if (0 <=? e)%Z then NumInt (with_sign neg (m * 10 ^ e))
      else NumDec (with_sign neg m) (Z.to_pos (- e))
  end.

Definition parse_fraction (s : string) : option (option string * string) :=
  match s with
  | String c r =>
      if (code c =? 46)%N then
        match span_digits r with
        | (EmptyString, _) => None
        | (f, rest) => Some (Some f, rest)
        end
      else Some (None, s)
  | EmptyString => Some (None, s)
  end.

Definition parse_exponent (s : string) : option (option Z * string) :=
  match s with
  | String c r =>
      if ((code c =? 101) || (code c =? 69))%N then
        let '(neg, r1) :=
          match r with
          | String sg r' =>
              if (code sg =? 45)%N then (true, r')
              else if (code sg =? 43)%N then (false, r')
              else (false, r)
          | EmptyString => (false, r)
          end in
        match span_digits r1 with
        | (EmptyString, _) => None
        | (ds, rest) => Some (Some (with_sign neg (Z.of_N (digits_value ds))), rest)
        end
      else Some (None, s)
  | EmptyString => Some (None, s)
  end.

Definition parse_number (s : string) : option (JsNumber * string) :=
  let '(neg, s1) :=
    match s with
    | String c r => if (code c =? 45)%N then (true, r) else (false, s)
    | EmptyString => (false, s)
    end in
  match span_digits s1 with
  | (EmptyString, _) => None
  | (String d more as ip, s2) =>
      if (code d =? 48)%N && negb (more =? "") then None
      else
        match parse_fraction s2 with
        | None => None
        | Some (fp, s3) =>
            match parse_exponent s3 with
            | None => None
            | Some (ex, s4) => Some (make_number neg ip fp ex, s4)
            end
        end
  end.

Fixpoint strip_prefix (p s : string) : option string :=
  match p with
  | EmptyString => Some s
  | String c p' =>
      match s with
      | String d s' => if Ascii.eqb c d then strip_prefix p' s' else None
      | EmptyString => None
      end
  end.

Definition parse_literal (lit : string) (v : JsValue) (s : string)
  : option (JsValue * string) :=
  match strip_prefix lit s with
  | Some rest => Some (v, rest)
  | None => None
  end.

(** A value at the head of [s] (no leading white space), and the text
    after it.  Every recursive call is on a strictly shorter text, so a
    fuel of the length of the text is never used up. *)
Fixpoint parse_value (fuel : nat) (s : string) : option (JsValue * string) :=
  match fuel with
  | O => None
  | S f =>
      match s with
      | EmptyString => None
      | String c r =>
          let n := code c in
          if (n =? 123)%N then
            match skip_ws r with
            | String c1 r1 =>
                if (code c1 =? 125)%N then Some (JsObj [], r1)
                else parse_members f (String c1 r1) []
            | EmptyString => None
            end
          else if (n =? 91)%N then
            match skip_ws r with
            | String c1 r1 =>
                if (code c1 =? 93)%N then Some (JsArr [], r1)
                else parse_elements f (String c1 r1) []
            | EmptyString => None
            end
          else if (n =? 34)%N then
            match parse_chars r with
            | Some (str, rest) => Some (JsStr str, rest)
            | None => None
            end
          else if (n =? 116)%N then parse_literal "true" (JsBool true) s
          else if (n =? 102)%N then parse_literal "false" (JsBool false) s
          else if (n =? 110)%N then parse_literal "null" JsNull s
          else
            match parse_number s with
            | Some (x, rest) => Some (JsNum x, rest)
            | None => None
            end
      end
  end

with parse_members (fuel : nat) (s : string) (acc : JsProps)
  : option (JsValue * string) :=
  match fuel with
  | O => None
  | S f =>
      match s with
      | String c r =>
          if (code c =? 34)%N then
            match parse_chars r with
            | Some (k, r1) =>
                match skip_ws r1 with
                | String c2 r2 =>
                    if (code c2 =? 58)%N then
                      match parse_value f (skip_ws r2) with
                      | Some (v, r3) =>
                          match skip_ws r3 with
                          | String c4 r4 =>
                              if (code c4 =? 44)%N then
                                parse_members f (skip_ws r4) (obj_set acc k v)
                              else if (code c4 =? 125)%N then
                                Some (JsObj (obj_set acc k v), r4)
                              else None
                          | EmptyString => None
                          end
                      | None => None
                      end
                    else None
                | EmptyString => None
                end
            | None => None
            end
          else None
      | EmptyString => None
      end
  end

with parse_elements (fuel : nat) (s : string) (acc : list JsValue)
  : option (JsValue * string) :=
  match fuel with
  | O => None
  | S f =>
      match parse_value f s with
      | Some (v, r1) =>
          match skip_ws r1 with
          | String c2 r2 =>
              if (code c2 =? 44)%N then
                parse_elements f (skip_ws r2) (acc ++ [v])%list
              else if (code c2 =? 93)%N then Some (JsArr (acc ++ [v])%list, r2)
              else None
          | EmptyString => None
          end
      | None => None
      end
  end.

(** [JSON.parse(text)]: the value, or [None] where JavaScript throws a
    SyntaxError. *)
Definition JSON_parse (text : string) : option JsValue :=
  match parse_value (2 * String.length text + 1) (skip_ws text) with
  | Some (v, rest) =>
      match skip_ws rest with
      | EmptyString => Some v
      | String _ _ => None
      end
  | None => None
  end.

(* ================================================================== *)
(** ** The platform: URL, fetch, and the effect of a request *)

(** *** URL and URLSearchParams

    A parsed URL: everything before the query, the query as its list of
    pairs, and the fragment ([""] or [#...]). *)
Record URL : Type := {
  url_base : string;
  searchParams : list (string * string);
  url_hash : string
}.

Definition remove_name (name : string) (l : list (string * string))
  : list (string * string) :=
  filter (fun p => negb (fst p =? name)) l.

(** [searchParams.set(name, value)]: the first pair of that name takes
    the value and the others go; without one the pair is appended. *)
Fixpoint params_set (l : list (string * string)) (name value : string)
  : list (string * string) :=
  match l with
  | [] => [(name, value)]
  | (k, v) :: r =>
      if k =? name then (name, value) :: remove_name name r
      else (k, v) :: params_set r name value
  end.

(** [searchParams.get(name)] *)
Fixpoint params_get (l : list (string * string)) (name : string)
  : option string :=
  match l with
  | [] => None
  | (k, v) :: r => if k =? name then Some v else params_get r name
  end.

Definition searchParams_set (u : URL) (name value : string) : URL :=
  {| url_base := url_base u;
     searchParams := params_set (searchParams u) name value;
     url_hash := url_hash u |}.

(** The application/x-www-form-urlencoded serializer. *)
Definition form_byte (c : ascii) : string :=
  let n := code c in
  if ((48 <=? n) && (n <=? 57) || (65 <=? n) && (n <=? 90)
      || (97 <=? n) && (n <=? 122)
      || (n =? 42) || (n =? 45) || (n =? 46) || (n =? 95))%N
  then String c ""
  else if (n =? 32)%N then "+"
  else
    let hex := fun d => if (d <? 10)%N then chr (48 + d) else chr (55 + d) in
    "%" ++ hex (n / 16)%N ++ hex (n mod 16)%N.

Fixpoint form_encode (s : string) : string :=
  match s with
  | EmptyString => ""
  | String c r => form_byte c ++ form_encode r
  end.

Definition form_serialize (l : list (string * string)) : string :=
  join "&" (map (fun p => form_encode (fst p) ++ "=" ++ form_encode (snd p)) l).

(** [url.toString()] *)
Definition URL_toString (u : URL) : string :=
  url_base u ++
  match searchParams u with
  | [] => ""
  | l => "?" ++ form_serialize l
  end ++ url_hash u.

(** *** Requests and responses *)

Inductive Method : Type := GET | POST | PATCH | DELETE.

Definition Method_eqb (a b : Method) : bool :=
  match a, b with
  | GET, GET | POST, POST | PATCH, PATCH | DELETE, DELETE => true
  | _, _ => false
  end.

(** The two arguments of [fetch(url, options)]. *)
Record Request : Type := {
  url : string;
  method : Method;
  headers : list (string * string);
  body : option string
}.

(** What the program reads of a Response: the status line, and the body
    as [response.text()] resolves it (reading the body may fail). *)
Record Response : Type := {
  status : N;
  statusText : string;
  text : Completion string
}.

(** [response.ok] *)
Definition ok (r : Response) : bool :=
  ((200 <=? status r) && (status r <=? 299))%N.

(** The status of a Response is an unsigned short. *)
Definition unsigned_short (n : N) : Prop := (n < 65536)%N.

(** The environment of the server: the value of DISCORD_WEBHOOK_URL
    (the process exits at start-up when it is missing), the URL parser
    ([new URL(s)] throws a TypeError on a text it cannot parse), [fetch]
    (the awaited response, or the rejection), and the message the
    engine gives a SyntaxError of [JSON.parse]. *)
Record Platform : Type := {
  WEBHOOK_URL : string;
  URL_new : string -> Completion URL;
  fetch : Request -> Completion Response;
  SyntaxError_message : string -> string
}.

(** *** Effects: the requests issued, in order, and the completion *)

Definition Eff (A : Type) : Type := list Request * Completion A.

Definition ret {A} (a : A) : Eff A := ([], Normal a).

Definition throw {A} (e : JsThrown) : Eff A := ([], Throw e).

Definition lift {A} (c : Completion A) : Eff A := ([], c).

Definition bind {A B} (m : Eff A) (k : A -> Eff B) : Eff B :=
  match m with
  | (log, Normal a) => let (log', r) := k a in ((log ++ log')%list, r)
  | (log, Throw e) => (log, Throw e)
  end.

(** [try { m } catch (e) { h e }] *)
Definition try_catch {A} (m : Eff A) (h : JsThrown -> Eff A) : Eff A :=
  match m with
  | (log, Normal a) => (log, Normal a)
  | (log, Throw e) => let (log', r) := h e in ((log ++ log')%list, r)
  end.

Notation "x <- m ;; k" := (bind m (fun x => k))
  (at level 61, m at next level, right associativity).

Definition requests {A} (m : Eff A) : list Request := fst m.
Definition completion {A} (m : Eff A) : Completion A := snd m.

(** [await fetch(url, options)] *)
Definition await_fetch (P : Platform) (req : Request) : Eff Response :=
  ([req], fetch P req).

(** [await response.json()] *)
Definition Response_json (P : Platform) (r : Response) : Eff JsValue :=
  t <- lift (text r) ;;
  match JSON_parse t with
  | Some v => ret v
  | None => throw (ErrorObj "SyntaxError" (SyntaxError_message P t))
  end.

(** [new Error(message)] *)
Definition Error_new (message : option string) : JsThrown :=
  ErrorObj "Error" match message with Some m => m | None => "" end.

(* ================================================================== *)
(** ** constants.ts *)

Definition CHARACTER_LIMIT : N := 25000.
Definition MAX_CONTENT_LENGTH : N := 2000.
Definition MAX_EMBEDS : N := 10.
Definition MAX_FIELDS : N := 25.
Definition MAX_EMBED_TOTAL_CHARS : N := 6000.
Definition RATE_LIMIT_PER_MINUTE : N := 30.

(* ================================================================== *)
(** ** types.ts and the types inferred from schemas.ts *)

(** What the client returns for a failure.  The interface types the
    fields of [webhook_error] as a number and two strings; at run time
    they are whatever the parsed message holds. *)
Inductive DiscordWebhookError : Type :=
| webhook_error (status statusText body : JsValue)
| validation_error (field message : string)
| unknown_error (message : string).

Module EmbedField.
Record t : Type := { name : string; value : string; inline : bool }.
End EmbedField.

Module EmbedFooter.
Record t : Type := { text : string; icon_url : option string }.
End EmbedFooter.

Module EmbedImage.
Record t : Type := { url : string }.
End EmbedImage.

Module EmbedAuthor.
Record t : Type := {
    name : string; url : option string; icon_url : option string }.
End EmbedAuthor.

Module Embed.
Record t : Type := {
    title : option string;
    url : option string;
    description : option string;
    timestamp : option string;
    color : option Z;
    footer : option EmbedFooter.t;
    image : option EmbedImage.t;
    thumbnail : option EmbedImage.t;
    author : option EmbedAuthor.t;
    fields : option (list EmbedField.t)
  }.
End Embed.

Module AllowedMentions.
Record t : Type := {
    parse : option (list string);
    roles : option (list string);
    users : option (list string);
    replied_user : bool
  }.
End AllowedMentions.

Module SendMessageInput.
Record t : Type := {
    content : option string;
    username : option string;
    avatar_url : option string;
    tts : bool;
    embeds : option (list Embed.t);
    allowed_mentions : option AllowedMentions.t;
    thread_id : option string;
    thread_name : option string
  }.
End SendMessageInput.

Module EditMessageInput.
Record t : Type := {
    message_id : string;
    content : option string;
    embeds : option (list Embed.t);
    allowed_mentions : option AllowedMentions.t
  }.
End EditMessageInput.

Module DeleteMessageInput.
Record t : Type := { message_id : string }.
End DeleteMessageInput.

(** *** The typed values as JavaScript objects

    The parsed input is the object the schema builds: the keys of the
    schema in their order, a missing optional key left out, a default
    filled in. *)
Definition opt_prop {A} (k : string) (f : A -> JsValue) (o : option A)
  : JsProps :=
  match o with
  | Some a => [(k, f a)]
  | None => []
  end.

Definition js_of_option {A} (f : A -> JsValue) (o : option A) : JsValue :=
  match o with
  | Some a => f a
  | None => JsUndefined
  end.

Definition js_of_strings (l : list string) : JsValue := JsArr (map JsStr l).

Definition js_of_int (z : Z) : JsValue := JsNum (NumInt z).

Definition js_of_field (f : EmbedField.t) : JsValue :=
  JsObj [("name", JsStr (EmbedField.name f));
         ("value", JsStr (EmbedField.value f));
         ("inline", JsBool (EmbedField.inline f))].

Definition js_of_footer (f : EmbedFooter.t) : JsValue :=
  JsObj ([("text", JsStr (EmbedFooter.text f))]
         ++ opt_prop "icon_url" JsStr (EmbedFooter.icon_url f))%list.

Definition js_of_image (i : EmbedImage.t) : JsValue :=
  JsObj [("url", JsStr (EmbedImage.url i))].

Definition js_of_author (a : EmbedAuthor.t) : JsValue :=
  JsObj ([("name", JsStr (EmbedAuthor.name a))]
         ++ opt_prop "url" JsStr (EmbedAuthor.url a)
         ++ opt_prop "icon_url" JsStr (EmbedAuthor.icon_url a))%list.

Definition js_of_embed (e : Embed.t) : JsValue :=
  JsObj (opt_prop "title" JsStr (Embed.title e)
         ++ opt_prop "url" JsStr (Embed.url e)
         ++ opt_prop "description" JsStr (Embed.description e)
         ++ opt_prop "timestamp" JsStr (Embed.timestamp e)
         ++ opt_prop "color" js_of_int (Embed.color e)
         ++ opt_prop "footer" js_of_footer (Embed.footer e)
         ++ opt_prop "image" js_of_image (Embed.image e)
         ++ opt_prop "thumbnail" js_of_image (Embed.thumbnail e)
         ++ opt_prop "author" js_of_author (Embed.author e)
         ++ opt_prop "fields" (fun l => JsArr (map js_of_field l))
                     (Embed.fields e))%list.

Definition js_of_embeds (l : list Embed.t) : JsValue :=
  JsArr (map js_of_embed l).

Definition js_of_mentions (m : AllowedMentions.t) : JsValue :=
  JsObj (opt_prop "parse" js_of_strings (AllowedMentions.parse m)
         ++ opt_prop "roles" js_of_strings (AllowedMentions.roles m)
         ++ opt_prop "users" js_of_strings (AllowedMentions.users m)
         ++ [("replied_user", JsBool (AllowedMentions.replied_user m))])%list.

(* ================================================================== *)
(** ** schemas.ts: the zod schemas

    A schema maps a raw value to the typed value it accepts, or to
    [None] where zod reports issues. *)

Definition Schema (A : Type) : Type := JsValue -> option A.

Notation "'let?' x := m 'in' k" :=
  (match m with Some x => k | None => None end)
  (at level 10, x name, m at level 100, k at level 200, only parsing).

(** [z.string()], [z.boolean()] *)
Definition z_string : Schema string :=
  fun v => match v with JsStr s => Some s | _ => None end.

Definition z_boolean : Schema bool :=
  fun v => match v with JsBool b => Some b | _ => None end.

(** [z.number().int()]: a number that is an integer *)
Definition z_number_int : Schema Z :=
  fun v => match v with JsNum (NumInt z) => Some z | _ => None end.

(** [.min(n)], [.max(n)] on a string: bounds on [length] *)
Definition min_length (n : N) (p : Schema string) : Schema string :=
  fun v => let? s := p v in if (n <=? js_length s)%N then Some s else None.

Definition max_length (n : N) (p : Schema string) : Schema string :=
  fun v => let? s := p v in if (js_length s <=? n)%N then Some s else None.

(** [.url()]: the text is one [new URL] accepts *)
Definition z_url (P : Platform) (p : Schema string) : Schema string :=
  fun v =>
    let? s := p v in
    match URL_new P s with
    | Normal _ => Some s
    | Throw _ => None
    end.

(** [.min(n)], [.max(n)] on a number *)
Definition min_value (n : Z) (p : Schema Z) : Schema Z :=
  fun v => let? z := p v in if (n <=? z)%Z then Some z else None.

Definition max_value (n : Z) (p : Schema Z) : Schema Z :=
  fun v => let? z := p v in if (z <=? n)%Z then Some z else None.

(** [.optional()] *)
Definition optional {A} (p : Schema A) : Schema (option A) :=
  fun v =>
    match v with
    | JsUndefined => Some None
    | _ => let? a := p v in Some (Some a)
    end.

(** [.optional().default(d)]: a missing value is replaced by [d] *)
Definition optional_default {A} (d : A) (p : Schema A) : Schema A :=
  fun v =>
    match v with
    | JsUndefined => Some d
    | _ => p v
    end.

(** [z.array(p)] and [.max(n)] on an array *)
Fixpoint parse_items {A} (p : Schema A) (l : list JsValue) : option (list A) :=
  match l with
  | [] => Some []
  | x :: r =>
      let? a := p x in
      let? rest := parse_items p r in
      Some (a :: rest)
  end.

Definition z_array {A} (p : Schema A) : Schema (list A) :=
  fun v => match v with JsArr items => parse_items p items | _ => None end.

Definition max_items {A} (n : N) (p : Schema (list A)) : Schema (list A) :=
  fun v => let? l := p v in if (array_length l <=? n)%N then Some l else None.

(** [z.enum([...])] *)
Definition z_enum (values : list string) : Schema string :=
  fun v =>
    match v with
    | JsStr s => if existsb (String.eqb s) values then Some s else None
    | _ => None
    end.

(** [z.object(shape).strict()]: an object none of whose keys is outside
    the shape; [build] parses the properties. *)
Definition strict_object {A} (shape : list string) (build : JsProps -> option A)
  : Schema A :=
  fun v =>
    match v with
    | JsObj props =>
        if forallb (fun k => existsb (String.eqb k) shape) (keys props)
        then build props
        else None
    | _ => None
    end.

(** The property [k] of the input, parsed by [p]. *)
Definition prop {A} (o : JsProps) (k : string) (p : Schema A) : option A :=
  p (obj_get JsUndefined o k).

Definition EmbedFieldSchema : Schema EmbedField.t :=
  strict_object ["name"; "value"; "inline"] (fun o =>
    let? name := prop o "name" (min_length 1 z_string) in
    let? value := prop o "value" (min_length 1 z_string) in
    let? inline := prop o "inline" (optional_default false z_boolean) in
    Some {| EmbedField.name := name; EmbedField.value := value;
            EmbedField.inline := inline |}).

Definition EmbedFooterSchema (P : Platform) : Schema EmbedFooter.t :=
  strict_object ["text"; "icon_url"] (fun o =>
    let? text := prop o "text" (max_length 2048 (min_length 1 z_string)) in
    let? icon_url := prop o "icon_url" (optional (z_url P z_string)) in
    Some {| EmbedFooter.text := text; EmbedFooter.icon_url := icon_url |}).

Definition EmbedImageSchema (P : Platform) : Schema EmbedImage.t :=
  strict_object ["url"] (fun o =>
    let? url := prop o "url" (z_url P z_string) in
    Some {| EmbedImage.url := url |}).

Definition EmbedAuthorSchema (P : Platform) : Schema EmbedAuthor.t :=
  strict_object ["name"; "url"; "icon_url"] (fun o =>
    let? name := prop o "name" (max_length 256 (min_length 1 z_string)) in
    let? url := prop o "url" (optional (z_url P z_string)) in
    let? icon_url := prop o "icon_url" (optional (z_url P z_string)) in
    Some {| EmbedAuthor.name := name; EmbedAuthor.url := url;
            EmbedAuthor.icon_url := icon_url |}).

Definition EmbedSchema (P : Platform) : Schema Embed.t :=
  strict_object
    ["title"; "url"; "description"; "timestamp"; "color"; "footer"; "image";
     "thumbnail"; "author"; "fields"]
    (fun o =>
    let? title := prop o "title" (optional (max_length 256 z_string)) in
    let? url := prop o "url" (optional (z_url P z_string)) in
    let? description :=
      prop o "description" (optional (max_length 4096 z_string)) in
    let? timestamp := prop o "timestamp" (optional z_string) in
    let? color :=
      prop o "color"
        (optional (max_value 16777215 (min_value 0 z_number_int))) in
    let? footer := prop o "footer" (optional (EmbedFooterSchema P)) in
    let? image := prop o "image" (optional (EmbedImageSchema P)) in
    let? thumbnail := prop o "thumbnail" (optional (EmbedImageSchema P)) in
    let? author := prop o "author" (optional (EmbedAuthorSchema P)) in
    let? fields :=
      prop o "fields"
        (optional (max_items MAX_FIELDS (z_array EmbedFieldSchema))) in
    Some {| Embed.title := title; Embed.url := url;
            Embed.description := description; Embed.timestamp := timestamp;
            Embed.color := color; Embed.footer := footer;
            Embed.image := image; Embed.thumbnail := thumbnail;
            Embed.author := author; Embed.fields := fields |}).

Definition AllowedMentionsSchema : Schema AllowedMentions.t :=
  strict_object ["parse"; "roles"; "users"; "replied_user"] (fun o =>
    let? parse :=
      prop o "parse"
        (optional (z_array (z_enum ["roles"; "users"; "everyone"]))) in
    let? roles := prop o "roles" (optional (z_array z_string)) in
    let? users := prop o "users" (optional (z_array z_string)) in
    let? replied_user :=
      prop o "replied_user" (optional_default false z_boolean) in
    Some {| AllowedMentions.parse := parse; AllowedMentions.roles := roles;
            AllowedMentions.users := users;
            AllowedMentions.replied_user := replied_user |}).

Definition SendMessageSchema (P : Platform) : Schema SendMessageInput.t :=
  strict_object
    ["content"; "username"; "avatar_url"; "tts"; "embeds"; "allowed_mentions";
     "thread_id"; "thread_name"]
    (fun o =>
    let? content :=
      prop o "content"
        (optional (max_length MAX_CONTENT_LENGTH (min_length 1 z_string))) in
    let? username := prop o "username" (optional (max_length 80 z_string)) in
    let? avatar_url := prop o "avatar_url" (optional (z_url P z_string)) in
    let? tts := prop o "tts" (optional_default false z_boolean) in
    let? embeds :=
      prop o "embeds"
        (optional (max_items MAX_EMBEDS (z_array (EmbedSchema P)))) in
    let? allowed_mentions :=
      prop o "allowed_mentions" (optional AllowedMentionsSchema) in
    let? thread_id := prop o "thread_id" (optional z_string) in
    let? thread_name :=
      prop o "thread_name" (optional (max_length 100 z_string)) in
    Some {| SendMessageInput.content := content;
            SendMessageInput.username := username;
            SendMessageInput.avatar_url := avatar_url;
            SendMessageInput.tts := tts;
            SendMessageInput.embeds := embeds;
            SendMessageInput.allowed_mentions := allowed_mentions;
            SendMessageInput.thread_id := thread_id;
            SendMessageInput.thread_name := thread_name |}).

Definition EditMessageSchema (P : Platform) : Schema EditMessageInput.t :=
  strict_object ["message_id"; "content"; "embeds"; "allowed_mentions"]
    (fun o =>
    let? message_id := prop o "message_id" (min_length 1 z_string) in
    let? content :=
      prop o "content"
        (optional (max_length MAX_CONTENT_LENGTH (min_length 1 z_string))) in
    let? embeds :=
      prop o "embeds"
        (optional (max_items MAX_EMBEDS (z_array (EmbedSchema P)))) in
    let? allowed_mentions :=
      prop o "allowed_mentions" (optional AllowedMentionsSchema) in
    Some {| EditMessageInput.message_id := message_id;
            EditMessageInput.content := content;
            EditMessageInput.embeds := embeds;
            EditMessageInput.allowed_mentions := allowed_mentions |}).

Definition DeleteMessageSchema : Schema DeleteMessageInput.t :=
  strict_object ["message_id"] (fun o =>
    let? message_id := prop o "message_id" (min_length 1 z_string) in
    Some {| DeleteMessageInput.message_id := message_id |}).

(* ================================================================== *)
(** ** discord-api.ts *)

Definition isWebhookError (error : DiscordWebhookError) : bool :=
  match error with
  | webhook_error _ _ _ => true
  | _ => false
  end.

Definition formatError (error : DiscordWebhookError) : string :=
  match error with
  | webhook_error status statusText body =>
      "Discord Webhook error: " ++ ToString status ++ " " ++
      ToString statusText ++ LF ++ ToString body
  | validation_error field message =>
      "Validation error: " ++ field ++ " - " ++ message
  | unknown_error message => "Unknown error: " ++ message
  end.

(** The object [makeRequest] serializes into the message of the Error
    it throws on a status that is not a success. *)
Definition error_payload (response : Response) (errorText : string) : JsValue :=
  JsObj [("status", JsNum (NumInt (Z.of_N (status response))));
         ("statusText", JsStr (statusText response));
         ("body", JsStr errorText)].

(** The [url] and the [options] handed to [fetch]. *)
Definition fetch_arguments (url : string) (method : Method)
    (body : option JsProps) : Request :=
  {| url := url;
     method := method;
     headers := [("Content-Type", "application/json")];
     body := match body with
             | Some b => JSON_stringify (JsObj b)
             | None => None
             end |}.

Definition makeRequest (P : Platform) (url : string) (method : Method)
    (body : option JsProps) : Eff JsValue :=
  response <- await_fetch P (fetch_arguments url method body) ;;
  if negb (ok response) then
    errorText <- lift (text response) ;;
    throw (Error_new (JSON_stringify (error_payload response errorText)))
  else if Method_eqb method DELETE then ret JsUndefined
  else Response_json P response.

Definition convertError (error : JsThrown) : DiscordWebhookError :=
  match error with
  | ErrorObj _ message =>
      if startsWith message "{" then
        match JSON_parse message with
        | Some parsed =>
            match js_get parsed "status", js_get parsed "statusText",
                  js_get parsed "body" with
            | Normal status, Normal statusText, Normal body =>
                webhook_error status statusText body
            | _, _, _ => unknown_error message
            end
        | None => unknown_error message
        end
      else unknown_error message
  | ThrownValue v => unknown_error (ToString v)
  end.

(** [if (threadId)]: a string that is present and not empty *)
Definition truthy_string (o : option string) : bool :=
  match o with
  | Some s => negb (s =? "")
  | None => false
  end.

Definition string_or_empty (o : option string) : string :=
  match o with
  | Some s => s
  | None => ""
  end.

(** [{ result, error? }] *)
Record ApiResult : Type := {
  result : JsValue;
  error : option DiscordWebhookError
}.

(** The webhook URL with the query of a send: [wait=true] when [wait],
    [thread_id] when [threadId] is truthy. *)
Definition send_url (url : URL) (wait : bool) (threadId : option string) : URL :=
  let url := if wait then searchParams_set url "wait" "true" else url in
  if truthy_string threadId
  then searchParams_set url "thread_id" (string_or_empty threadId)
  else url.

Definition sendToDiscord (P : Platform) (payload : JsProps) (wait : bool)
    (threadId : option string) : Eff ApiResult :=
  url <- lift (URL_new P (WEBHOOK_URL P)) ;;
  let url := send_url url wait threadId in
  try_catch
    (result <- makeRequest P (URL_toString url) POST (Some payload) ;;
     ret {| result := result; error := None |})
    (fun error => ret {| result := JsNull; error := Some (convertError error) |}).

Definition editDiscordMessage (P : Platform) (messageId : string)
    (payload : JsProps) : Eff ApiResult :=
  url <- lift (URL_new P (WEBHOOK_URL P ++ "/messages/" ++ messageId)) ;;
  try_catch
    (result <- makeRequest P (URL_toString url) PATCH (Some payload) ;;
     ret {| result := result; error := None |})
    (fun error => ret {| result := JsNull; error := Some (convertError error) |}).

(** [{ error? }]: the delete has no result. *)
Definition deleteDiscordMessage (P : Platform) (messageId : string)
  : Eff (option DiscordWebhookError) :=
  url <- lift (URL_new P (WEBHOOK_URL P ++ "/messages/" ++ messageId)) ;;
  try_catch
    (_ <- makeRequest P (URL_toString url) DELETE None ;;
     ret None)
    (fun error => ret (Some (convertError error))).

(* ================================================================== *)
(** ** index.ts: the three tools *)

Module TextContent.
Record t : Type := { type : string; text : string }.
End TextContent.

(** What a tool returns; a key the handler does not write is [None]. *)
Record ToolResult : Type := {
  content : list TextContent.t;
  structuredContent : option JsValue;
  isError : option bool
}.

Definition text_content (s : string) : TextContent.t :=
  {| TextContent.type := "text"; TextContent.text := s |}.

Definition error_result (message : string) : ToolResult :=
  {| content := [text_content message];
     structuredContent := None;
     isError := Some true |}.

(** [o[k] = v] when [cond] holds *)
Definition set_if (cond : bool) (k : string) (v : JsValue) (o : JsProps)
  : JsProps :=
  if cond then obj_set o k v else o.

Definition present {A} (o : option A) : bool :=
  match o with
  | Some _ => true
  | None => false
  end.

(** [x && x.length > 0] as a condition, for a string and for an array *)
Definition nonempty_string (o : option string) : bool :=
  match o with
  | Some s => negb (s =? "") && (0 <? js_length s)%N
  | None => false
  end.

Definition nonempty_array {A} (o : option (list A)) : bool :=
  match o with
  | Some l => (0 <? array_length l)%N
  | None => false
  end.

Definition MISSING_CONTENT : string :=
  "エラー: content、embeds のうち最低1つを指定してください".

Definition send_payload (params : SendMessageInput.t) : JsProps :=
  let hasContent := nonempty_string (SendMessageInput.content params) in
  let hasEmbeds := nonempty_array (SendMessageInput.embeds params) in
  let payload : JsProps := [] in
  let payload :=
    set_if hasContent "content"
      (js_of_option JsStr (SendMessageInput.content params)) payload in
  let payload :=
    set_if (truthy_string (SendMessageInput.username params)) "username"
      (js_of_option JsStr (SendMessageInput.username params)) payload in
  let payload :=
    set_if (truthy_string (SendMessageInput.avatar_url params)) "avatar_url"
      (js_of_option JsStr (SendMessageInput.avatar_url params)) payload in
  let payload :=
    set_if (SendMessageInput.tts params) "tts"
      (JsBool (SendMessageInput.tts params)) payload in
  let payload :=
    set_if hasEmbeds "embeds"
      (js_of_option js_of_embeds (SendMessageInput.embeds params)) payload in
  let payload :=
    set_if (present (SendMessageInput.allowed_mentions params))
      "allowed_mentions"
      (js_of_option js_of_mentions (SendMessageInput.allowed_mentions params))
      payload in
  let payload :=
    set_if (truthy_string (SendMessageInput.thread_name params)) "thread_name"
      (js_of_option JsStr (SendMessageInput.thread_name params)) payload in
  payload.

Definition discord_send_message (P : Platform) (params : SendMessageInput.t)
  : Eff ToolResult :=
  let hasContent := nonempty_string (SendMessageInput.content params) in
  let hasEmbeds := nonempty_array (SendMessageInput.embeds params) in
  if negb hasContent && negb hasEmbeds then ret (error_result MISSING_CONTENT)
  else
    let payload := send_payload params in
    r <- sendToDiscord P payload true (SendMessageInput.thread_id params) ;;
    match error r with
    | Some e => ret (error_result ("エラー: " ++ formatError e))
    | None =>
        let messageInfo := result r in
        ret {| content :=
                 [text_content
                    (if truthy messageInfo
                     then "メッセージを送信しました" ++ LF ++ "ID: " ++
                          ToString (js_get_opt messageInfo "id") ++ LF ++
                          "チャンネル: " ++
                          ToString (js_get_opt messageInfo "channel_id")
                     else "メッセージを送信しました")];
               structuredContent :=
                 Some (JsObj
                   [("success", JsBool true);
                    ("message_id", js_get_opt messageInfo "id");
                    ("channel_id", js_get_opt messageInfo "channel_id");
                    ("timestamp", js_get_opt messageInfo "timestamp")]);
               isError := None |}
    end.

Definition edit_payload (params : EditMessageInput.t) : JsProps :=
  let hasContent := nonempty_string (EditMessageInput.content params) in
  let hasEmbeds := nonempty_array (EditMessageInput.embeds params) in
  let payload : JsProps := [] in
  let payload :=
    set_if hasContent "content"
      (js_of_option JsStr (EditMessageInput.content params)) payload in
  let payload :=
    set_if hasEmbeds "embeds"
      (js_of_option js_of_embeds (EditMessageInput.embeds params)) payload in
  let payload :=
    set_if (present (EditMessageInput.allowed_mentions params))
      "allowed_mentions"
      (js_of_option js_of_mentions (EditMessageInput.allowed_mentions params))
      payload in
  payload.

Definition discord_edit_message (P : Platform) (params : EditMessageInput.t)
  : Eff ToolResult :=
  let hasContent := nonempty_string (EditMessageInput.content params) in
  let hasEmbeds := nonempty_array (EditMessageInput.embeds params) in
  if negb hasContent && negb hasEmbeds then ret (error_result MISSING_CONTENT)
  else
    let payload := edit_payload params in
    r <- editDiscordMessage P (EditMessageInput.message_id params) payload ;;
    match error r with
    | Some e => ret (error_result ("エラー: " ++ formatError e))
    | None =>
        if negb (truthy (result r))
        then ret (error_result "エラー: メッセージの編集に失敗しました")
        else
          ret {| content :=
                   [text_content
                      ("メッセージを編集しました" ++ LF ++ "ID: " ++
                       ToString (js_get_opt (result r) "id"))];
                 structuredContent :=
                   Some (JsObj
                     [("success", JsBool true);
                      ("message_id", js_get_opt (result r) "id");
                      ("timestamp", js_get_opt (result r) "timestamp")]);
                 isError := None |}
    end.

Definition discord_delete_message (P : Platform) (params : DeleteMessageInput.t)
  : Eff ToolResult :=
  error <- deleteDiscordMessage P (DeleteMessageInput.message_id params) ;;
  match error with
  | Some e => ret (error_result ("エラー: " ++ formatError e))
  | None =>
      ret {| content :=
               [text_content
                  ("メッセージを削除しました" ++ LF ++ "ID: " ++
                   DeleteMessageInput.message_id params)];
             structuredContent :=
               Some (JsObj
                 [("success", JsBool true);
                  ("message_id",
                   JsStr (DeleteMessageInput.message_id params))]);
             isError := None |}
  end.

(** The server's dispatch of a registered tool: the arguments are
    parsed with the tool's [inputSchema], the handler runs on the parsed
    value, and it does not run where the schema rejects. *)
Definition callTool {I} (inputSchema : Schema I) (handler : I -> Eff ToolResult)
    (args : JsValue) : Eff (option ToolResult) :=
  match inputSchema args with
  | None => ret None
  | Some params => r <- handler params ;; ret (Some r)
  end.

Definition call_send_message (P : Platform) : JsValue -> Eff (option ToolResult) :=
  callTool (SendMessageSchema P) (discord_send_message P).

Definition call_edit_message (P : Platform) : JsValue -> Eff (option ToolResult) :=
  callTool (EditMessageSchema P) (discord_edit_message P).

Definition call_delete_message (P : Platform) : JsValue -> Eff (option ToolResult) :=
  callTool DeleteMessageSchema (discord_delete_message P).

(* ================================================================== *)
(** ** The single-file server (the older [index.ts])

    One tool, [send_message], on the low-level [Server]: the handler
    parses the arguments itself, and the client returns a [Result]
    (neverthrow).  [formatError], [isWebhookError] and the function that
    classifies a rejection are, line for line, those of
    [discord-api.ts], and are shared here. *)
Module Legacy.

(** [x !== undefined] *)
Definition is_defined (v : JsValue) : bool :=
  match v with
  | JsUndefined => false
  | _ => true
  end.

(** [z.object(shape)] without [.strict()]: the keys outside the shape
    are dropped, and the output has, in the order of the shape, the
    keys that the input has or that parse to a value. *)
Fixpoint parse_shape (shape : list (string * Schema JsValue)) (o : JsProps)
  : option JsProps :=
  match shape with
  | [] => Some []
  | (k, q) :: rest =>
      let? x := q (obj_get JsUndefined o k) in
      let? more := parse_shape rest o in
      Some (if obj_has o k || is_defined x then (k, x) :: more else more)
  end.

Definition z_object (shape : list (string * Schema JsValue)) : Schema JsValue :=
  fun v =>
    match v with
    | JsObj o => let? out := parse_shape shape o in Some (JsObj out)
    | _ => None
    end.

(** A typed schema as a schema of values. *)
Definition as_value {A} (f : A -> JsValue) (q : Schema A) : Schema JsValue :=
  fun v => let? a := q v in Some (f a).

Definition string_value : Schema JsValue := as_value JsStr z_string.

Definition url_value (P : Platform) : Schema JsValue :=
  as_value JsStr (z_url P z_string).

Definition boolean_default_false : Schema JsValue :=
  as_value JsBool (optional_default false z_boolean).

(** [z.number()] *)
Definition z_number : Schema JsValue :=
  fun v => match v with JsNum n => Some (JsNum n) | _ => None end.

Definition optional_value (q : Schema JsValue) : Schema JsValue :=
  as_value (js_of_option (fun x => x)) (optional q).

Definition array_value (q : Schema JsValue) : Schema JsValue :=
  as_value JsArr (z_array q).

Definition EmbedFieldSchema : Schema JsValue :=
  z_object [("name", string_value); ("value", string_value);
            ("inline", boolean_default_false)].

Definition EmbedSchema (P : Platform) : Schema JsValue :=
  z_object
    [("title", optional_value string_value);
     ("url", optional_value (url_value P));
     ("description", optional_value string_value);
     ("timestamp", optional_value string_value);
     ("color", optional_value z_number);
     ("footer",
      optional_value
        (z_object [("text", string_value);
                   ("icon_url", optional_value (url_value P))]));
     ("image", optional_value (z_object [("url", url_value P)]));
     ("thumbnail", optional_value (z_object [("url", url_value P)]));
     ("author",
      optional_value
        (z_object [("name", string_value);
                   ("url", optional_value (url_value P));
                   ("icon_url", optional_value (url_value P))]));
     ("fields", optional_value (array_value EmbedFieldSchema))].

Definition AllowedMentionsSchema : Schema JsValue :=
  z_object
    [("parse",
      optional_value
        (array_value (as_value JsStr (z_enum ["roles"; "users"; "everyone"]))));
     ("roles", optional_value (array_value string_value));
     ("users", optional_value (array_value string_value));
     ("replied_user", boolean_default_false)].

(** The parsed arguments of [send_message]; an embed and the mention
    descriptor are kept as the objects the schema builds. *)
Module Parsed.
Record t : Type := {
  content : option string;
  username : option string;
  avatar_url : option string;
  tts : bool;
  embeds : option (list JsValue);
  allowed_mentions : option JsValue;
  thread_id : option string;
  thread_name : option string
}.
End Parsed.

Definition SendMessageSchema (P : Platform) : Schema Parsed.t :=
  fun v =>
    match v with
    | JsObj o =>
        let? content :=
          prop o "content" (optional (max_length 2000 (min_length 1 z_string))) in
        let? username := prop o "username" (optional z_string) in
        let? avatar_url := prop o "avatar_url" (optional (z_url P z_string)) in
        let? tts := prop o "tts" (optional_default false z_boolean) in
        let? embeds :=
          prop o "embeds" (optional (max_items 10 (z_array (EmbedSchema P)))) in
        let? allowed_mentions :=
          prop o "allowed_mentions" (optional AllowedMentionsSchema) in
        let? thread_id := prop o "thread_id" (optional z_string) in
        let? thread_name := prop o "thread_name" (optional z_string) in
        Some {| Parsed.content := content; Parsed.username := username;
                Parsed.avatar_url := avatar_url; Parsed.tts := tts;
                Parsed.embeds := embeds;
                Parsed.allowed_mentions := allowed_mentions;
                Parsed.thread_id := thread_id;
                Parsed.thread_name := thread_name |}
    | _ => None
    end.

(** [Result<T, E>] of neverthrow *)
Inductive Result : Type :=
| Ok (value : JsValue)
| Err (error : DiscordWebhookError).

(** The promise handed to [ResultAsync.fromPromise]: the fetch and its
    [then] callback. *)
Definition exchange (P : Platform) (url : string) (payload : JsProps)
    (wait : bool) : Eff JsValue :=
  response <- await_fetch P (fetch_arguments url POST (Some payload)) ;;
  if negb (ok response) then
    errorText <- lift (text response) ;;
    throw (Error_new (JSON_stringify (error_payload response errorText)))
  else if wait then Response_json P response
  else ret JsNull.

Definition sendToDiscord (P : Platform) (payload : JsProps) (wait : bool)
  : Eff Result :=
  url <- lift (URL_new P (WEBHOOK_URL P)) ;;
  let url := if wait then searchParams_set url "wait" "true" else url in
  try_catch
    (value <- exchange P (URL_toString url) payload wait ;; ret (Ok value))
    (fun error => ret (Err (convertError error))).

Definition MISSING : string :=
  "content、embeds、file、poll、components のうち最低1つを指定してください".

(** [const { thread_id, ...restPayload } = payload] *)
Definition without_thread_id (payload : JsProps) : JsValue * JsProps :=
  (obj_get JsUndefined payload "thread_id",
   filter (fun kv => negb (fst kv =? "thread_id")) payload).

Definition payload_of (parsed : Parsed.t) : JsProps :=
  let hasContent := nonempty_string (Parsed.content parsed) in
  let hasEmbeds := nonempty_array (Parsed.embeds parsed) in
  let payload : JsProps := [] in
  let payload :=
    set_if hasContent "content" (js_of_option JsStr (Parsed.content parsed)) payload in
  let payload :=
    set_if (truthy_string (Parsed.username parsed)) "username"
      (js_of_option JsStr (Parsed.username parsed)) payload in
  let payload :=
    set_if (truthy_string (Parsed.avatar_url parsed)) "avatar_url"
      (js_of_option JsStr (Parsed.avatar_url parsed)) payload in
  let payload := set_if (Parsed.tts parsed) "tts" (JsBool (Parsed.tts parsed)) payload in
  let payload :=
    set_if hasEmbeds "embeds" (js_of_option JsArr (Parsed.embeds parsed)) payload in
  let payload :=
    set_if (present (Parsed.allowed_mentions parsed)) "allowed_mentions"
      (js_of_option (fun x => x) (Parsed.allowed_mentions parsed)) payload in
  let payload :=
    set_if (truthy_string (Parsed.thread_name parsed)) "thread_name"
      (js_of_option JsStr (Parsed.thread_name parsed)) payload in
  payload.

(** The structured error of a failed send. *)
Definition error_content (e : DiscordWebhookError) : JsValue :=
  match e with
  | webhook_error status statusText body =>
      JsObj [("type", JsStr "webhook_error"); ("status", status);
             ("statusText", statusText); ("message", body)]
  | validation_error _ message =>
      JsObj [("type", JsStr "validation_error"); ("message", JsStr message)]
  | unknown_error message =>
      JsObj [("type", JsStr "unknown_error"); ("message", JsStr message)]
  end.

(** The handler of [CallToolRequestSchema]; [issues] is the message of
    the ZodError that [SendMessageSchema.parse] throws. *)
Definition callTool (P : Platform) (issues : JsValue -> string)
    (name : string) (args : JsValue) : Eff ToolResult :=
  if name =? "send_message" then
    match SendMessageSchema P args with
    | None => throw (ErrorObj "ZodError" (issues args))
    | Some parsed =>
        let hasContent := nonempty_string (Parsed.content parsed) in
        let hasEmbeds := nonempty_array (Parsed.embeds parsed) in
        if negb hasContent && negb hasEmbeds then
          ret {| content := [text_content ("エラー: " ++ MISSING)];
                 structuredContent :=
                   Some (JsObj
                     [("success", JsBool false);
                      ("error",
                       JsObj [("type", JsStr "validation_error");
                              ("field", JsStr "content/embeds");
                              ("message", JsStr MISSING)])]);
                 isError := Some true |}
        else
          let payload := payload_of parsed in
          let '(thread_id, restPayload) := without_thread_id payload in
          r <- sendToDiscord P restPayload (truthy thread_id) ;;
          match r with
          | Ok messageInfo =>
              ret {| content :=
                       [text_content
                          (if truthy messageInfo
                           then "メッセージを送信しました" ++ LF ++ "ID: " ++
                                ToString (js_get_opt messageInfo "id") ++ LF ++
                                "チャンネル: " ++
                                ToString (js_get_opt messageInfo "channel_id")
                           else "メッセージを送信しました")];
                     structuredContent :=
                       Some (JsObj
                         [("success", JsBool true);
                          ("message_id", js_get_opt messageInfo "id");
                          ("channel_id", js_get_opt messageInfo "channel_id");
                          ("timestamp", js_get_opt messageInfo "timestamp")]);
                     isError := Some false |}
          | Err e =>
              ret {| content :=
                       [text_content ("エラー: " ++ formatError e)];
                     structuredContent :=
                       Some (JsObj [("success", JsBool false);
                                    ("error", error_content e)]);
                     isError := Some true |}
          end
    end
  else
    ret {| content := [text_content ("エラー: 不明なツール: " ++ name)];
           structuredContent :=
             Some (JsObj
               [("success", JsBool false);
                ("error",
                 JsObj [("type", JsStr "unknown_error");
                        ("message", JsStr ("Unknown tool: " ++ name))])]);
           isError := Some true |}.

End Legacy.

(* ================================================================== *)
(** ** Vocabulary of the statements *)

(** [error instanceof Error ? error.message : String(error)] *)
Definition thrown_message (e : JsThrown) : string :=
  match e with
  | ErrorObj _ message => message
  | ThrownValue v => ToString v
  end.

(** An Error whose message starts with a brace and parses as JSON. *)
Definition json_object_message (e : JsThrown) : bool :=
  match e with
  | ErrorObj _ message =>
      startsWith message "{" &&
      match JSON_parse message with Some _ => true | None => false end
  | ThrownValue _ => false
  end.

(** The failures of an exchange that are not an HTTP status: [fetch]
    rejects, the body cannot be read, or the body of a successful
    response is not JSON where it is parsed. *)
Inductive transport_failure (P : Platform) (req : Request) : JsThrown -> Prop :=
| fetch_rejected (e : JsThrown) :
    fetch P req = Throw e -> transport_failure P req e
| body_unreadable (r : Response) (e : JsThrown) :
    fetch P req = Normal r ->
    ok r && Method_eqb (method req) DELETE = false ->
    text r = Throw e -> transport_failure P req e
| body_not_json (r : Response) (t : string) :
    fetch P req = Normal r -> ok r = true ->
    Method_eqb (method req) DELETE = false ->
    text r = Normal t -> JSON_parse t = None ->
    transport_failure P req (ErrorObj "SyntaxError" (SyntaxError_message P t)).

(** The bounds of the specification, read on the raw input: a length
    bound on a value that is a string, a count bound on a value that is
    an array, and the range of a colour that is given. *)
Definition string_within (n : N) (v : JsValue) : Prop :=
  forall s, v = JsStr s -> (js_length s <= n)%N.

Definition array_within (n : N) (v : JsValue) : Prop :=
  forall l, v = JsArr l -> (array_length l <= n)%N.

Definition color_within (v : JsValue) : Prop :=
  v = JsUndefined \/
  exists z, v = JsNum (NumInt z) /\ (0 <= z <= 16777215)%Z.

Definition embed_within_bounds (e : JsValue) : Prop :=
  string_within 256 (js_get_opt e "title") /\
  string_within 4096 (js_get_opt e "description") /\
  string_within 2048 (js_get_opt (js_get_opt e "footer") "text") /\
  string_within 256 (js_get_opt (js_get_opt e "author") "name") /\
  array_within 25 (js_get_opt e "fields") /\
  color_within (js_get_opt e "color").

Definition message_within_bounds (raw : JsValue) : Prop :=
  string_within 2000 (js_get_opt raw "content") /\
  string_within 80 (js_get_opt raw "username") /\
  string_within 100 (js_get_opt raw "thread_name") /\
  array_within 10 (js_get_opt raw "embeds") /\
  (forall l e, js_get_opt raw "embeds" = JsArr l -> In e l ->
               embed_within_bounds e).

(** The JSON text of the object [makeRequest] throws for a status. *)
Definition error_text (n : N) (st b : string) : string :=
  "{" ++ DQUOTE ++ quote_chars "status" ++ DQUOTE ++ ":" ++
  digits_of_N n ++ "," ++
  DQUOTE ++ quote_chars "statusText" ++ DQUOTE ++ ":" ++
  DQUOTE ++ quote_chars st ++ DQUOTE ++ "," ++
  DQUOTE ++ quote_chars "body" ++ DQUOTE ++ ":" ++
  DQUOTE ++ quote_chars b ++ DQUOTE ++ "}".

(** An object none of whose keys is outside [shape], and a value that
    is such an object when it is given. *)
Definition closed_shape (shape : list string) (v : JsValue) : Prop :=
  exists o, v = JsObj o /\ incl (keys o) shape.

Definition closed_if_given (shape : list string) (v : JsValue) : Prop :=
  v = JsUndefined \/ closed_shape shape v.

Definition embed_closed (e : JsValue) : Prop :=
  closed_shape ["title"; "url"; "description"; "timestamp"; "color"; "footer";
                "image"; "thumbnail"; "author"; "fields"] e /\
  closed_if_given ["text"; "icon_url"] (js_get_opt e "footer") /\
  closed_if_given ["url"] (js_get_opt e "image") /\
  closed_if_given ["url"] (js_get_opt e "thumbnail") /\
  closed_if_given ["name"; "url"; "icon_url"] (js_get_opt e "author") /\
  (forall l f, js_get_opt e "fields" = JsArr l -> In f l ->
               closed_shape ["name"; "value"; "inline"] f).

(** The string a raw value holds, if it is one. *)
Definition string_of_js (v : JsValue) : option string :=
  match v with
  | JsStr s => Some s
  | _ => None
  end.

(** A string schema answers the string it was given. *)
Definition reads_strings (q : Schema string) : Prop :=
  forall v b, q v = Some b -> v = JsStr b.

(** A value that is a string or is missing. *)
Definition string_or_missing (v : JsValue) : Prop :=
  v = JsUndefined \/ exists s, v = JsStr s.

(** The requests of the three client functions. *)
Definition send_request (u : URL) (payload : JsProps) (wait : bool)
    (threadId : option string) : Request :=
  fetch_arguments (URL_toString (send_url u wait threadId)) POST (Some payload).

Definition edit_request (u : URL) (payload : JsProps) : Request :=
  fetch_arguments (URL_toString u) PATCH (Some payload).

Definition delete_request (u : URL) : Request :=
  fetch_arguments (URL_toString u) DELETE None.

(** The text handed to [new URL] for a message. *)
Definition message_url (P : Platform) (messageId : string) : string :=
  WEBHOOK_URL P ++ "/messages/" ++ messageId.

(* ================================================================== *)
(** ** Fixtures: a concrete platform for the examples *)

(** A URL parser for absolute https texts without query or fragment. *)
Definition simple_URL_new (s : string) : Completion URL :=
  if startsWith s "https://"
  then Normal {| url_base := s; searchParams := []; url_hash := "" |}
  else Throw (ErrorObj "TypeError" "Invalid URL").

Definition demo_webhook : string := "https://discord.com/api/webhooks/1/token".

(** A platform whose endpoint answers every request with [answer]. *)
Definition demo_platform (webhook : string) (answer : Completion Response)
  : Platform :=
  {| WEBHOOK_URL := webhook;
     URL_new := simple_URL_new;
     fetch := fun _ => answer;
     SyntaxError_message := fun _ => "Unexpected end of JSON input" |}.

Definition respond (status : N) (statusText body : string) : Response :=
  {| status := status; statusText := statusText; text := Normal body |}.

Definition not_found : Response := respond 404 "Not Found" "Unknown Message".

Definition no_content : Response := respond 204 "No Content" "".

Definition created : Response :=
  respond 200 "OK"
    (stringify_value
       (JsObj [("id", JsStr "111"); ("channel_id", JsStr "222");
               ("content", JsStr "hi");
               ("timestamp", JsStr "2025-06-29T16:34:10Z")])).

(** The endpoint cannot be reached: [fetch] rejects. *)
Definition offline : Completion Response :=
  Throw (ErrorObj "TypeError" "fetch failed").

(** A rejection whose message happens to be a JSON object. *)
Definition brace_rejection : Completion Response :=
  Throw (ErrorObj "TypeError" "{}").

Definition only_content (s : string) : SendMessageInput.t :=
  {| SendMessageInput.content := Some s;
     SendMessageInput.username := None;
     SendMessageInput.avatar_url := None;
     SendMessageInput.tts := false;
     SendMessageInput.embeds := None;
     SendMessageInput.allowed_mentions := None;
     SendMessageInput.thread_id := None;
     SendMessageInput.thread_name := None |}.

Definition empty_send : SendMessageInput.t :=
  {| SendMessageInput.content := None;
     SendMessageInput.username := None;
     SendMessageInput.avatar_url := None;
     SendMessageInput.tts := false;
     SendMessageInput.embeds := None;
     SendMessageInput.allowed_mentions := None;
     SendMessageInput.thread_id := None;
     SendMessageInput.thread_name := None |}.

Definition with_thread (tid : string) (p : SendMessageInput.t) : SendMessageInput.t :=
  {| SendMessageInput.content := SendMessageInput.content p;
     SendMessageInput.username := SendMessageInput.username p;
     SendMessageInput.avatar_url := SendMessageInput.avatar_url p;
     SendMessageInput.tts := SendMessageInput.tts p;
     SendMessageInput.embeds := SendMessageInput.embeds p;
     SendMessageInput.allowed_mentions := SendMessageInput.allowed_mentions p;
     SendMessageInput.thread_id := Some tid;
     SendMessageInput.thread_name := SendMessageInput.thread_name p |}.

Definition empty_edit (id : string) : EditMessageInput.t :=
  {| EditMessageInput.message_id := id;
     EditMessageInput.content := None;
     EditMessageInput.embeds := None;
     EditMessageInput.allowed_mentions := None |}.

Definition edit_content (id s : string) : EditMessageInput.t :=
  {| EditMessageInput.message_id := id;
     EditMessageInput.content := Some s;
     EditMessageInput.embeds := None;
     EditMessageInput.allowed_mentions := None |}.

Definition delete_of (id : string) : DeleteMessageInput.t :=
  {| DeleteMessageInput.message_id := id |}.

Definition url_of (s : string) : URL :=
  {| url_base := s; searchParams := []; url_hash := "" |}.

(** A success whose body is the JSON [null]. *)
Definition null_body : Response := respond 200 "OK" "null".

Definition named_content (name s : string) : SendMessageInput.t :=
  {| SendMessageInput.content := Some s;
     SendMessageInput.username := Some name;
     SendMessageInput.avatar_url := None;
     SendMessageInput.tts := false;
     SendMessageInput.embeds := None;
     SendMessageInput.allowed_mentions := None;
     SendMessageInput.thread_id := None;
     SendMessageInput.thread_name := None |}.


(** The message of the ZodError, for the examples. *)
Definition no_issues (args : JsValue) : string := "[]".


Definition legacy_threaded (s tid : string) : Legacy.Parsed.t :=
  {| Legacy.Parsed.content := Some s;
     Legacy.Parsed.username := None;
     Legacy.Parsed.avatar_url := None;
     Legacy.Parsed.tts := false;
     Legacy.Parsed.embeds := None;
     Legacy.Parsed.allowed_mentions := None;
     Legacy.Parsed.thread_id := Some tid;
     Legacy.Parsed.thread_name := None |}.

Definition legacy_nothing : Legacy.Parsed.t :=
  {| Legacy.Parsed.content := None;
     Legacy.Parsed.username := None;
     Legacy.Parsed.avatar_url := None;
     Legacy.Parsed.tts := false;
     Legacy.Parsed.embeds := Some [];
     Legacy.Parsed.allowed_mentions := None;
     Legacy.Parsed.thread_id := None;
     Legacy.Parsed.thread_name := None |}.

(** An embed as a caller sends it, with a key the schema does not know. *)
Definition legacy_embed_args : JsValue :=
  JsObj [("content", JsStr "hi");
         ("embeds",
          JsArr [JsObj [("title", JsStr "t"); ("extra", JsNum (NumInt 1))]])].

Definition legacy_embedded : Legacy.Parsed.t :=
  {| Legacy.Parsed.content := Some "hi";
     Legacy.Parsed.username := None;
     Legacy.Parsed.avatar_url := None;
     Legacy.Parsed.tts := false;
     Legacy.Parsed.embeds := Some [JsObj [("title", JsStr "t")]];
     Legacy.Parsed.allowed_mentions := None;
     Legacy.Parsed.thread_id := None;
     Legacy.Parsed.thread_name := None |}.

Lemma append_assoc (a b c : string) : (a ++ b) ++ c = a ++ (b ++ c).
Proof. induction a as [|x a IH]; simpl; [reflexivity | now rewrite IH]. Qed.

Lemma prepend_some p s rest : prepend p (Some (s, rest)) = Some (p ++ s, rest).
Proof. reflexivity. Qed.

Lemma parse_chars_quote_char (c : ascii) (tail : string) :
  parse_chars (quote_char c ++ tail) = prepend (String c "") (parse_chars tail).
Proof.
  destruct c as [[|] [|] [|] [|] [|] [|] [|] [|]]; cbn; reflexivity.
Qed.

Lemma parse_chars_quote_chars (s rest : string) :
  parse_chars (quote_chars s ++ DQUOTE ++ rest) = Some (s, rest).
Proof.
  induction s as [|c s IH].
  - reflexivity.
  - cbn [quote_chars]. rewrite append_assoc, parse_chars_quote_char, IH.
    reflexivity.
Qed.

(** Decimal digits *)

Lemma digits_of_N_nonnil (n : N) : N.to_uint n <> Decimal.Nil.
Proof.
  destruct n; simpl; [discriminate | apply DecimalPos.Unsigned.to_uint_nonnil].
Qed.

Lemma digits_of_N_NilEmpty (n : N) :
  digits_of_N n = NilEmpty.string_of_uint (N.to_uint n).
Proof.
  unfold digits_of_N, NilZero.string_of_uint.
  destruct (N.to_uint n) eqn:E; try reflexivity.
  now apply digits_of_N_nonnil in E.
Qed.

Lemma digits_value_digits (n : N) : digits_value (digits_of_N n) = n.
Proof.
  unfold digits_value. rewrite digits_of_N_NilEmpty, NilEmpty.usu.
  apply DecimalN.Unsigned.of_to.
Qed.

Lemma span_digits_uint (u : Decimal.uint) (c : ascii) (r : string) :
  is_digit c = false ->
  span_digits (NilEmpty.string_of_uint u ++ String c r)
  = (NilEmpty.string_of_uint u, String c r).
Proof.
  intros Hc. induction u; cbn [NilEmpty.string_of_uint append span_digits];
    try (change (is_digit "0") with true; cbv iota);
    try (rewrite IHu; reflexivity).
  now rewrite Hc.
Qed.

Lemma is_digit_code (d : ascii) :
  is_digit d = true -> (48 <= code d <= 57)%N.
Proof.
  unfold is_digit. intros H. apply andb_prop in H as [H1 H2].
  apply N.leb_le in H1, H2. lia.
Qed.

Lemma digits_of_N_head (n : N) :
  exists d more,
    digits_of_N n = String d more /\ is_digit d = true /\
    ((code d =? 48)%N && negb (more =? "") = false).
Proof.
  rewrite digits_of_N_NilEmpty.
  destruct n as [|p]; [exists "0"%char, ""; repeat split|].
  cbn [N.to_uint].
  pose proof (DecimalPos.Unsigned.to_uint_nonzero p) as Hnz.
  pose proof (DecimalN.Unsigned.to_of (N.to_uint (N.pos p))) as Hn.
  rewrite DecimalN.Unsigned.of_to in Hn. cbn [N.to_uint] in Hn.
  unfold Decimal.unorm in Hn.
  pose proof (nzhead_nonzero (Pos.to_uint p)) as Hh.
  destruct (Decimal.nzhead (Pos.to_uint p)) eqn:E;
    try (now elim Hnz); try (now elim (Hh u));
    rewrite Hn; cbn [NilEmpty.string_of_uint];
    eexists _, _; (split; [reflexivity | split; reflexivity]).
Qed.

Lemma Number_toString_status (n : N) :
  (n < 65536)%N -> Number_toString (NumInt (Z.of_N n)) = digits_of_N n.
Proof.
  intros H. unfold Number_toString.
  replace (Z.abs (Z.of_N n) <? 10 ^ 21)%Z with true
    by (symmetry; apply Z.ltb_lt; lia).
  now destruct n.
Qed.

Lemma parse_number_digits (n : N) (r : string) :
  parse_number (digits_of_N n ++ String "," r)
  = Some (NumInt (Z.of_N n), String "," r).
Proof.
  destruct (digits_of_N_head n) as (d & more & E & Hd & Hz).
  pose proof (is_digit_code d Hd) as Hc.
  assert (Hspan : span_digits (String d (more ++ String "," r))
                  = (String d more, String "," r)).
  { change (String d (more ++ String "," r))
      with (String d more ++ String "," r).
    rewrite <- E, digits_of_N_NilEmpty. now apply span_digits_uint. }
  unfold parse_number. rewrite E. cbn [append].
  replace (code d =? 45)%N with false by (symmetry; apply N.eqb_neq; lia).
  rewrite Hspan, Hz.
  cbn. unfold make_number. rewrite <- E, digits_value_digits. reflexivity.
Qed.

Lemma parse_value_number (f : nat) (n : N) (r : string) :
  parse_value (S f) (digits_of_N n ++ String "," r)
  = Some (JsNum (NumInt (Z.of_N n)), String "," r).
Proof.
  pose proof (parse_number_digits n r) as Hp.
  destruct (digits_of_N_head n) as (d & more & E & Hd & _).
  pose proof (is_digit_code d Hd) as Hc.
  rewrite E in *. cbn [append] in *. cbn [parse_value].
  repeat match goal with
  | |- context [(code d =? ?k)%N] =>
      replace (code d =? k)%N with false by (symmetry; apply N.eqb_neq; lia)
  end.
  now rewrite Hp.
Qed.

Lemma parse_value_string (f : nat) (s rest : string) :
  parse_value (S f) (DQUOTE ++ quote_chars s ++ DQUOTE ++ rest)
  = Some (JsStr s, rest).
Proof.
  cbn [parse_value DQUOTE append].
  change (code "034" =? 123)%N with false.
  change (code "034" =? 91)%N with false.
  change (code "034" =? 34)%N with true. cbv iota.
  change (String "034" rest) with (DQUOTE ++ rest).
  now rewrite parse_chars_quote_chars.
Qed.

Lemma parse_members_member (f : nat) (k vt : string) (v : JsValue)
    (c : ascii) (r : string) (acc : JsProps) :
  skip_ws vt = vt ->
  parse_value f vt = Some (v, String c r) ->
  is_ws c = false ->
  parse_members (S f) (DQUOTE ++ quote_chars k ++ DQUOTE ++ ":" ++ vt) acc
  = if (code c =? 44)%N then parse_members f (skip_ws r) (obj_set acc k v)
    else if (code c =? 125)%N then Some (JsObj (obj_set acc k v), r)
    else None.
Proof.
  intros Hws Hv Hc.
  cbn [parse_members DQUOTE append].
  change (code "034" =? 34)%N with true. cbv iota.
  change (String "034" (String ":" vt)) with (DQUOTE ++ String ":" vt).
  rewrite parse_chars_quote_chars.
  cbn [skip_ws]. change (is_ws ":") with false. cbv iota.
  change (code ":" =? 58)%N with true. cbv iota.
  rewrite Hws, Hv. cbn [skip_ws]. rewrite Hc. reflexivity.
Qed.

Lemma stringify_error_payload (r : Response) (b : string) :
  (status r < 65536)%N ->
  stringify_value (error_payload r b) = error_text (status r) (statusText r) b.
Proof.
  intros H. unfold error_payload, error_text.
  cbn [stringify_value join]. rewrite (Number_toString_status _ H).
  unfold quote. repeat rewrite append_assoc. reflexivity.
Qed.

Lemma parse_value_object (f : nat) (x : string) :
  parse_value (S f) ("{" ++ DQUOTE ++ x) = parse_members f (DQUOTE ++ x) [].
Proof. reflexivity. Qed.

Lemma skip_ws_dquote (x : string) : skip_ws (DQUOTE ++ x) = DQUOTE ++ x.
Proof. reflexivity. Qed.

Lemma skip_ws_digits (n : N) (x : string) :
  skip_ws (digits_of_N n ++ x) = digits_of_N n ++ x.
Proof.
  destruct (digits_of_N_head n) as (d & more & E & Hd & _).
  rewrite E. cbn [append skip_ws].
  replace (is_ws d) with false; [reflexivity|].
  pose proof (is_digit_code d Hd). unfold is_ws.
  repeat match goal with
  | |- context [(code d =? ?k)%N] =>
      replace (code d =? k)%N with false by (symmetry; apply N.eqb_neq; lia)
  end. reflexivity.
Qed.

Lemma parse_error_text (f : nat) (n : N) (st b : string) :
  parse_value (5 + f) (error_text n st b)
  = Some (JsObj [("status", JsNum (NumInt (Z.of_N n)));
                 ("statusText", JsStr st); ("body", JsStr b)], "").
Proof.
  unfold error_text.
  change (5 + f) with (S (S (S (S (S f))))).
  rewrite parse_value_object.
  erewrite parse_members_member;
    [ | apply skip_ws_digits | apply parse_value_number | reflexivity ].
  change (code "," =? 44)%N with true. cbv iota.
  rewrite skip_ws_dquote.
  erewrite parse_members_member;
    [ | apply skip_ws_dquote | apply parse_value_string | reflexivity ].
  change (code "," =? 44)%N with true. cbv iota.
  rewrite skip_ws_dquote.
  erewrite parse_members_member;
    [ | apply skip_ws_dquote | apply parse_value_string | reflexivity ].
  reflexivity.
Qed.

Lemma JSON_parse_error_payload (r : Response) (b : string) :
  (status r < 65536)%N ->
  JSON_parse (stringify_value (error_payload r b)) = Some (error_payload r b).
Proof.
  intros H. rewrite (stringify_error_payload r b H).
  unfold JSON_parse.
  assert (Hf : exists f, 2 * String.length (error_text (status r) (statusText r) b) + 1
                         = 5 + f).
  { unfold error_text. cbn [append String.length DQUOTE].
    eexists. rewrite Nat.add_1_r. cbn [Nat.mul Nat.add].
    rewrite <- !plus_n_Sm. reflexivity. }
  destruct Hf as [f ->].
  change (skip_ws (error_text ?n ?s ?x)) with (error_text n s x).
  rewrite parse_error_text. reflexivity.
Qed.



(* ================================================================== *)
(** ** The transport: what [makeRequest] does with each answer *)

Section Transport.
Variable P : Platform.
Variables (url : string) (method : Method) (body : option JsProps).

Let req := fetch_arguments url method body.

Lemma makeRequest_rejected (e : JsThrown) :
    fetch P req = Throw e ->
    makeRequest P url method body = ([req], Throw e).
Proof.
    intros H. unfold makeRequest, await_fetch, bind. fold req. now rewrite H.
Qed.

Lemma makeRequest_status (r : Response) (b : string) :
    fetch P req = Normal r -> ok r = false -> text r = Normal b ->
    makeRequest P url method body
    = ([req], Throw (Error_new (JSON_stringify (error_payload r b)))).
Proof.
    intros H Hok Ht. unfold makeRequest, await_fetch, bind. fold req.
    rewrite H, Hok. cbn [negb lift bind throw ret app fst snd andb]. rewrite Ht. reflexivity.
Qed.

Lemma makeRequest_unreadable (r : Response) (e : JsThrown) :
    fetch P req = Normal r -> ok r && Method_eqb method DELETE = false ->
    text r = Throw e ->
    makeRequest P url method body = ([req], Throw e).
Proof.
    intros H Hok Ht. unfold makeRequest, await_fetch, bind. fold req.
    rewrite H. destruct (ok r); cbn [andb negb] in *.
    - rewrite Hok. unfold Response_json, lift, bind. rewrite Ht. reflexivity.
    - unfold lift, bind. rewrite Ht. reflexivity.
Qed.

Lemma makeRequest_not_json (r : Response) (t : string) :
    fetch P req = Normal r -> ok r = true -> Method_eqb method DELETE = false ->
    text r = Normal t -> JSON_parse t = None ->
    makeRequest P url method body
    = ([req], Throw (ErrorObj "SyntaxError" (SyntaxError_message P t))).
Proof.
    intros H Hok Hm Ht Hj. unfold makeRequest, await_fetch, bind. fold req.
    rewrite H, Hok, Hm. cbn [negb]. unfold Response_json, lift, bind.
    rewrite Ht, Hj. reflexivity.
Qed.

Lemma makeRequest_json (r : Response) (t : string) (v : JsValue) :
    fetch P req = Normal r -> ok r = true -> Method_eqb method DELETE = false ->
    text r = Normal t -> JSON_parse t = Some v ->
    makeRequest P url method body = ([req], Normal v).
Proof.
    intros H Hok Hm Ht Hj. unfold makeRequest, await_fetch, bind. fold req.
    rewrite H, Hok, Hm. cbn [negb]. unfold Response_json, lift, bind.
    rewrite Ht, Hj. reflexivity.
Qed.

Lemma makeRequest_delete (r : Response) :
    fetch P req = Normal r -> ok r = true -> method = DELETE ->
    makeRequest P url method body = ([req], Normal JsUndefined).
Proof.
    intros H Hok Hm. unfold makeRequest, await_fetch, bind. fold req.
    rewrite H, Hok, Hm. reflexivity.
Qed.

  (** Whatever the platform answers, one request goes out. *)
Lemma makeRequest_requests :
    requests (makeRequest P url method body) = [req].
Proof.
    unfold makeRequest, await_fetch, bind, requests. fold req.
    destruct (fetch P req) as [r|e]; [|reflexivity].
    destruct (ok r); cbn [negb].
    - destruct (Method_eqb method DELETE); [reflexivity|].
      unfold Response_json, lift, bind.
      destruct (text r) as [t|e]; [|reflexivity].
      destruct (JSON_parse t); reflexivity.
    - unfold lift, bind. destruct (text r); reflexivity.
Qed.
End Transport.

(* ================================================================== *)
(** ** The error classifier *)

Lemma transport_failure_thrown (P : Platform) (url : string) (method : Method)
    (body : option JsProps) (e : JsThrown) :
  transport_failure P (fetch_arguments url method body) e ->
  makeRequest P url method body = ([fetch_arguments url method body], Throw e).
Proof.
  intros [e' H | r e' H Hok Ht | r t H Hok Hm Ht Hj].
  - now apply makeRequest_rejected.
  - now apply makeRequest_unreadable with r.
  - now apply makeRequest_not_json with r.
Qed.

Lemma convertError_unknown (e : JsThrown) :
  json_object_message e = false ->
  convertError e = unknown_error (thrown_message e).
Proof.
  destruct e as [name m | v]; cbn; [|reflexivity].
  destruct (startsWith m "{"); [|reflexivity].
  destruct (JSON_parse m); [discriminate | reflexivity].
Qed.

Lemma convertError_status (r : Response) (b : string) :
  unsigned_short (status r) ->
  convertError (Error_new (JSON_stringify (error_payload r b)))
  = webhook_error (JsNum (NumInt (Z.of_N (status r))))
                  (JsStr (statusText r)) (JsStr b).
Proof.
  intros H. unfold JSON_stringify, error_payload at 1, Error_new, convertError.
  fold (error_payload r b).
  rewrite (JSON_parse_error_payload r b H).
  rewrite (stringify_error_payload r b H). reflexivity.
Qed.

(** A text that starts with a brace parses to an object or not at all. *)
Lemma parse_members_object (f : nat) :
  forall (s : string) (acc : JsProps) (v : JsValue) (rest : string),
    parse_members f s acc = Some (v, rest) -> exists props, v = JsObj props.
Proof.
  induction f as [|f IH]; intros s acc v rest H; [discriminate|].
  cbn [parse_members] in H.
  repeat match type of H with
  | match ?x with _ => _ end = _ => destruct x eqn:?; try discriminate
  | (if ?x then _ else _) = _ => destruct x eqn:?; try discriminate
  | (let (_, _) := ?x in _) = _ => destruct x eqn:?
  end.
  - eapply IH; eassumption.
  - injection H as <- _. eauto.
Qed.

Lemma JSON_parse_brace (s : string) (v : JsValue) :
  startsWith s "{" = true -> JSON_parse s = Some v ->
  exists props, v = JsObj props.
Proof.
  destruct s as [|c s]; [discriminate|]. intros Hc.
  assert (c = "{"%char) as ->.
  { change (Ascii.eqb "{" c && startsWith s "" = true) in Hc.
    apply andb_prop in Hc as [Hc _]. apply Ascii.eqb_eq in Hc. now subst. }
  clear Hc.
  unfold JSON_parse. change (skip_ws (String "{" s)) with (String "{" s).
  rewrite Nat.add_1_r. cbn [parse_value].
  change (code "{" =? 123)%N with true. cbv iota.
  intros H.
  destruct (skip_ws s) as [|c1 r1]; [discriminate|].
  destruct (code c1 =? 125)%N.
  - destruct (skip_ws r1); [|discriminate]. injection H as <-. eauto.
  - destruct (parse_members _ _ _) as [[v' rest]|] eqn:E; [|discriminate].
    destruct (skip_ws rest); [|discriminate]. injection H as <-.
    eapply parse_members_object; eassumption.
Qed.

Lemma convertError_webhook (e : JsThrown) :
  isWebhookError (convertError e) = json_object_message e.
Proof.
  destruct e as [name m | v]; cbn; [|reflexivity].
  destruct (startsWith m "{") eqn:Hs; [|reflexivity].
  destruct (JSON_parse m) as [v|] eqn:Hp; [|reflexivity].
  destruct (JSON_parse_brace m v Hs Hp) as [props ->]. reflexivity.
Qed.

(* ================================================================== *)
(** ** The three client functions *)

Ltac run_client Hu Hm :=
  unfold sendToDiscord, editDiscordMessage, deleteDiscordMessage,
    send_request, edit_request, delete_request, message_url, lift, bind,
    try_catch in *;
  rewrite Hu; cbn [fst snd]; rewrite Hm; reflexivity.

Section Client.
Variable P : Platform.

Lemma sendToDiscord_thrown payload wait threadId u e :
    URL_new P (WEBHOOK_URL P) = Normal u ->
    makeRequest P (URL_toString (send_url u wait threadId)) POST (Some payload)
    = ([send_request u payload wait threadId], Throw e) ->
    sendToDiscord P payload wait threadId
    = ([send_request u payload wait threadId],
       Normal {| result := JsNull; error := Some (convertError e) |}).
Proof. intros Hu Hm. run_client Hu Hm. Qed.

Lemma sendToDiscord_returned payload wait threadId u v :
    URL_new P (WEBHOOK_URL P) = Normal u ->
    makeRequest P (URL_toString (send_url u wait threadId)) POST (Some payload)
    = ([send_request u payload wait threadId], Normal v) ->
    sendToDiscord P payload wait threadId
    = ([send_request u payload wait threadId],
       Normal {| result := v; error := None |}).
Proof. intros Hu Hm. run_client Hu Hm. Qed.

Lemma editDiscordMessage_thrown messageId payload u e :
    URL_new P (message_url P messageId) = Normal u ->
    makeRequest P (URL_toString u) PATCH (Some payload)
    = ([edit_request u payload], Throw e) ->
    editDiscordMessage P messageId payload
    = ([edit_request u payload],
       Normal {| result := JsNull; error := Some (convertError e) |}).
Proof. intros Hu Hm. run_client Hu Hm. Qed.

Lemma editDiscordMessage_returned messageId payload u v :
    URL_new P (message_url P messageId) = Normal u ->
    makeRequest P (URL_toString u) PATCH (Some payload)
    = ([edit_request u payload], Normal v) ->
    editDiscordMessage P messageId payload
    = ([edit_request u payload], Normal {| result := v; error := None |}).
Proof. intros Hu Hm. run_client Hu Hm. Qed.

Lemma deleteDiscordMessage_thrown messageId u e :
    URL_new P (message_url P messageId) = Normal u ->
    makeRequest P (URL_toString u) DELETE None
    = ([delete_request u], Throw e) ->
    deleteDiscordMessage P messageId
    = ([delete_request u], Normal (Some (convertError e))).
Proof. intros Hu Hm. run_client Hu Hm. Qed.

Lemma deleteDiscordMessage_returned messageId u v :
    URL_new P (message_url P messageId) = Normal u ->
    makeRequest P (URL_toString u) DELETE None
    = ([delete_request u], Normal v) ->
    deleteDiscordMessage P messageId = ([delete_request u], Normal None).
Proof. intros Hu Hm. run_client Hu Hm. Qed.

  (** A webhook URL that does not parse: the TypeError of [new URL]
      leaves the function, and nothing is sent. *)
Lemma sendToDiscord_bad_url payload wait threadId e :
    URL_new P (WEBHOOK_URL P) = Throw e ->
    sendToDiscord P payload wait threadId = ([], Throw e).
Proof. intros Hu. unfold sendToDiscord, lift, bind. now rewrite Hu. Qed.
End Client.

(* ================================================================== *)
(** ** Claims on the transport and the classifier *)

(** C2 (as amended).  Once the URL has parsed, a failure of the exchange
    that is not an HTTP status (fetch rejects, the body cannot be read,
    the body of a successful response is not JSON) never leaves
    [sendToDiscord], [editDiscordMessage] or [deleteDiscordMessage] as
    an exception: each returns the classified error, which is an
    [unknown_error] carrying the message of the exception unless that
    message starts with a brace and parses as JSON. *)
Theorem transport_failures_are_returned (P : Platform) (e : JsThrown) :
  (forall payload wait threadId u,
      URL_new P (WEBHOOK_URL P) = Normal u ->
      transport_failure P (send_request u payload wait threadId) e ->
      completion (sendToDiscord P payload wait threadId)
      = Normal {| result := JsNull; error := Some (convertError e) |})
  /\ (forall messageId payload u,
      URL_new P (message_url P messageId) = Normal u ->
      transport_failure P (edit_request u payload) e ->
      completion (editDiscordMessage P messageId payload)
      = Normal {| result := JsNull; error := Some (convertError e) |})
  /\ (forall messageId u,
      URL_new P (message_url P messageId) = Normal u ->
      transport_failure P (delete_request u) e ->
      completion (deleteDiscordMessage P messageId)
      = Normal (Some (convertError e)))
  /\ (json_object_message e = false ->
      convertError e = unknown_error (thrown_message e)).
Proof.
  repeat split.
  - intros payload wait threadId u Hu Hf.
    apply transport_failure_thrown in Hf.
    now rewrite (sendToDiscord_thrown P _ _ _ u e Hu Hf).
  - intros messageId payload u Hu Hf.
    apply transport_failure_thrown in Hf.
    now rewrite (editDiscordMessage_thrown P _ _ u e Hu Hf).
  - intros messageId u Hu Hf.
    apply transport_failure_thrown in Hf.
    now rewrite (deleteDiscordMessage_thrown P _ u e Hu Hf).
  - apply convertError_unknown.
Qed.


(** C10.  [convertError] answers a [webhook_error] exactly for an Error
    whose message starts with a brace and parses as JSON; an Error of
    that shape which no HTTP status produced, such as one of message
    [{}], is a [webhook_error] whose three fields are undefined. *)
Theorem webhook_error_iff_json_message (e : JsThrown) :
  (isWebhookError (convertError e) = true <->
   exists name message v,
     e = ErrorObj name message /\ startsWith message "{" = true /\
     JSON_parse message = Some v)
  /\ convertError (ErrorObj "TypeError" "{}")
     = webhook_error JsUndefined JsUndefined JsUndefined.
Proof.
  split; [|reflexivity].
  rewrite convertError_webhook. split.
  - destruct e as [name m | v]; cbn; [|discriminate].
    intros H. apply andb_prop in H as [Hs Hp].
    destruct (JSON_parse m) as [v|] eqn:E; [|discriminate].
    now exists name, m, v.
  - intros (name & m & v & -> & Hs & Hp). cbn. now rewrite Hs, Hp.
Qed.



(* ================================================================== *)
(** ** The query of the webhook URL *)


Lemma params_get_set_same (l : list (string * string)) (k v : string) :
  params_get (params_set l k v) k = Some v.
Proof.
  induction l as [|[a b] l IH]; cbn [params_set params_get].
  - now rewrite String.eqb_refl.
  - destruct (String.eqb_spec a k); cbn [params_get].
    + now rewrite String.eqb_refl.
    + destruct (String.eqb_spec a k); [contradiction | exact IH].
Qed.


Lemma truthy_string_spec (o : option string) :
  truthy_string o = true <-> exists s, o = Some s /\ s <> "".
Proof.
  destruct o as [s|]; cbn.
  - destruct (String.eqb_spec s ""); cbn; split;
      try discriminate; try (intros (s' & [= <-] & H); contradiction); eauto.
  - split; [discriminate | intros (s & [=] & _)].
Qed.


Lemma send_url_thread (u : URL) (wait : bool) (tid : string) :
  tid <> "" ->
  params_get (searchParams (send_url u wait (Some tid))) "thread_id" = Some tid.
Proof.
  intros H. unfold send_url.
  replace (truthy_string (Some tid)) with true
    by (symmetry; apply truthy_string_spec; eauto).
  cbn [searchParams_set searchParams string_or_empty].
  apply params_get_set_same.
Qed.

Lemma send_url_no_thread (u : URL) (threadId : option string) :
  threadId = None \/ threadId = Some "" ->
  send_url u true threadId = searchParams_set u "wait" "true".
Proof. now intros [-> | ->]. Qed.

(* ================================================================== *)
(** ** Payloads *)

Lemma In_obj_set {A} (o : list (string * A)) (k k' : string) (v v' : A) :
  In (k, v) (obj_set o k' v') -> (k, v) = (k', v') \/ In (k, v) o.
Proof.
  induction o as [|[a b] o IH]; cbn [obj_set].
  - intros [H|[]]; auto.
  - destruct (a =? k'); cbn [In]; intros [H|H]; auto.
    destruct (IH H); auto.
Qed.

Lemma In_set_if (c : bool) (o : JsProps) (k k' : string) (v v' : JsValue) :
  In (k, v) (set_if c k' v' o) ->
  (c = true /\ k = k' /\ v = v') \/ In (k, v) o.
Proof.
  unfold set_if. destruct c; [|auto].
  intros H. apply In_obj_set in H as [[= -> ->]|H]; auto.
Qed.

Lemma In_keys {A} (o : list (string * A)) (k : string) :
  In k (keys o) -> exists v, In (k, v) o.
Proof.
  unfold keys. intros H. apply in_map_iff in H as ([k' v] & E & H).
  cbn in E. subst. eauto.
Qed.

Lemma nonempty_string_spec (o : option string) :
  nonempty_string o = true -> exists s, o = Some s /\ s <> "".
Proof.
  destruct o as [s|]; cbn; [|discriminate].
  destruct (String.eqb_spec s ""); [discriminate | eauto].
Qed.

Lemma nonempty_array_spec {A} (o : option (list A)) :
  nonempty_array o = true <-> exists l, o = Some l /\ l <> [].
Proof.
  destruct o as [l|]; cbn.
  - destruct l; cbn; split; try discriminate;
      try (intros (l' & [= <-] & H); contradiction); eauto.
    intros _. eexists. split; [reflexivity | discriminate].
  - split; [discriminate | intros (l & [=] & _)].
Qed.

Lemma nonempty_string_absent (o : option string) :
  o = None \/ o = Some "" -> nonempty_string o = false.
Proof. now intros [-> | ->]. Qed.

Lemma nonempty_array_absent {A} (o : option (list A)) :
  o = None \/ o = Some [] -> nonempty_array o = false.
Proof. now intros [-> | ->]. Qed.

Lemma present_spec {A} (o : option A) :
  present o = true -> exists a, o = Some a.
Proof. destruct o; [eauto | discriminate]. Qed.

(** Every entry of the send payload, with the condition that put it. *)
Lemma send_payload_entries (params : SendMessageInput.t) (k : string)
    (v : JsValue) :
  In (k, v) (send_payload params) ->
  (k = "content" /\ exists s,
      SendMessageInput.content params = Some s /\ s <> "" /\ v = JsStr s)
  \/ (k = "username" /\ exists s,
      SendMessageInput.username params = Some s /\ s <> "" /\ v = JsStr s)
  \/ (k = "avatar_url" /\ exists s,
      SendMessageInput.avatar_url params = Some s /\ s <> "" /\ v = JsStr s)
  \/ (k = "tts" /\ SendMessageInput.tts params = true /\ v = JsBool true)
  \/ (k = "embeds" /\ exists l,
      SendMessageInput.embeds params = Some l /\ l <> [] /\ v = js_of_embeds l)
  \/ (k = "allowed_mentions" /\ exists m,
      SendMessageInput.allowed_mentions params = Some m /\ v = js_of_mentions m)
  \/ (k = "thread_name" /\ exists s,
      SendMessageInput.thread_name params = Some s /\ s <> "" /\ v = JsStr s).
Proof.
  unfold send_payload. intros H.
  repeat (apply In_set_if in H as [(Hc & -> & ->)|H]; [|]); [ .. | destruct H].
  - do 6 right. split; [reflexivity|].
    apply truthy_string_spec in Hc as (s & -> & Hs). eauto.
  - do 5 right. left. split; [reflexivity|].
    apply present_spec in Hc as (m & ->). eauto.
  - do 4 right. left. split; [reflexivity|].
    apply nonempty_array_spec in Hc as (l & -> & Hl). eauto.
  - do 3 right. left. rewrite Hc. auto.
  - do 2 right. left. split; [reflexivity|].
    apply truthy_string_spec in Hc as (s & -> & Hs). eauto.
  - right. left. split; [reflexivity|].
    apply truthy_string_spec in Hc as (s & -> & Hs). eauto.
  - left. split; [reflexivity|].
    apply nonempty_string_spec in Hc as (s & -> & Hs). eauto.
Qed.

Lemma edit_payload_entries (params : EditMessageInput.t) (k : string)
    (v : JsValue) :
  In (k, v) (edit_payload params) ->
  k = "content" \/ k = "embeds" \/ k = "allowed_mentions".
Proof.
  unfold edit_payload. intros H.
  repeat (apply In_set_if in H as [(Hc & -> & ->)|H]; [|]); [ .. | destruct H];
    auto.
Qed.

(* ================================================================== *)
(** ** The handlers *)

Section Handlers.
Variable P : Platform.

  (** Past the check, the send handler is one call of the client. *)
Lemma discord_send_message_requests (params : SendMessageInput.t)
      (req : Request) :
    In req (requests (discord_send_message P params)) ->
    exists u,
      URL_new P (WEBHOOK_URL P) = Normal u /\
      req = send_request u (send_payload params) true
              (SendMessageInput.thread_id params).
Proof.
    unfold discord_send_message.
    destruct (negb _ && negb _); [cbn; intros []|].
    unfold sendToDiscord, lift, bind, try_catch, requests.
    destruct (URL_new P (WEBHOOK_URL P)) as [u|e]; [|cbn; intros []].
    cbn [fst snd].
    pose proof (makeRequest_requests P
      (URL_toString (send_url u true (SendMessageInput.thread_id params)))
      POST (Some (send_payload params))) as Hr.
    unfold requests in Hr.
    destruct (makeRequest P _ POST _) as [log [v|e]]; cbn [fst] in Hr; subst log;
      cbn [fst snd app].
    - cbn; intros [<-|[]]; eauto.
    - cbn; intros [<-|[]]; eauto.
Qed.

Lemma discord_edit_message_requests (params : EditMessageInput.t)
      (req : Request) :
    In req (requests (discord_edit_message P params)) ->
    exists u,
      URL_new P (message_url P (EditMessageInput.message_id params)) = Normal u /\
      req = edit_request u (edit_payload params).
Proof.
    unfold discord_edit_message.
    destruct (negb _ && negb _); [cbn; intros []|].
    unfold editDiscordMessage, lift, bind, try_catch, requests.
    fold (message_url P (EditMessageInput.message_id params)).
    destruct (URL_new P _) as [u|e]; [|cbn; intros []].
    cbn [fst snd].
    pose proof (makeRequest_requests P (URL_toString u)
      PATCH (Some (edit_payload params))) as Hr.
    unfold requests in Hr.
    destruct (makeRequest P _ PATCH _) as [log [v|e]]; cbn [fst] in Hr; subst log;
      cbn [fst snd app].
    - cbn. destruct (truthy v); cbn; intros [<-|[]]; eauto.
    - cbn; intros [<-|[]]; eauto.
Qed.
End Handlers.

(* ================================================================== *)
(** ** Claims on the handlers *)

(** C1 (what the code does).  A send or an edit with neither a
    non-empty content nor a non-empty embed list issues no request and
    returns an error result, but the result is a bare text: no
    structured content, and not the rendering of a [validation_error]
    of field [content/embeds], whatever its message. *)
Theorem missing_content_is_a_bare_text (P : Platform) :
  (forall params : SendMessageInput.t,
      SendMessageInput.content params = None \/
      SendMessageInput.content params = Some "" ->
      SendMessageInput.embeds params = None \/
      SendMessageInput.embeds params = Some [] ->
      discord_send_message P params = ([], Normal (error_result MISSING_CONTENT)))
  /\ (forall params : EditMessageInput.t,
      EditMessageInput.content params = None \/
      EditMessageInput.content params = Some "" ->
      EditMessageInput.embeds params = None \/
      EditMessageInput.embeds params = Some [] ->
      discord_edit_message P params = ([], Normal (error_result MISSING_CONTENT)))
  /\ isError (error_result MISSING_CONTENT) = Some true
  /\ structuredContent (error_result MISSING_CONTENT) = None
  /\ (forall message,
      content (error_result MISSING_CONTENT)
      <> [text_content
            ("エラー: " ++ formatError (validation_error "content/embeds" message))]).
Proof.
  repeat split.
  - intros params Hc He. unfold discord_send_message.
    now rewrite (nonempty_string_absent _ Hc), (nonempty_array_absent _ He).
  - intros params Hc He. unfold discord_edit_message.
    now rewrite (nonempty_string_absent _ Hc), (nonempty_array_absent _ He).
  - intros message H. cbn in H. discriminate H.
Qed.

(** C5 (as amended).  The send payload never has a [thread_id] key and
    does not depend on the parameter; every request of a send is the
    request of that payload on the URL of [send_url], where a
    [thread_id] that is present and not empty is the value of the
    [thread_id] query parameter, and an empty one is not applied. *)
Theorem thread_id_goes_to_the_query (P : Platform)
    (params : SendMessageInput.t) :
  ~ In "thread_id" (keys (send_payload params))
  /\ (forall tid, send_payload (with_thread tid params) = send_payload params)
  /\ (forall req,
      In req (requests (discord_send_message P params)) ->
      exists u,
        URL_new P (WEBHOOK_URL P) = Normal u /\
        url req = URL_toString
                    (send_url u true (SendMessageInput.thread_id params)) /\
        body req = JSON_stringify (JsObj (send_payload params)))
  /\ (forall u tid,
      SendMessageInput.thread_id params = Some tid -> tid <> "" ->
      params_get
        (searchParams (send_url u true (SendMessageInput.thread_id params)))
        "thread_id" = Some tid)
  /\ (forall u,
      SendMessageInput.thread_id params = Some "" ->
      send_url u true (SendMessageInput.thread_id params)
      = searchParams_set u "wait" "true").
Proof.
  repeat split.
  - intros H. apply In_keys in H as [v H].
    apply send_payload_entries in H.
    repeat destruct H as [H|H]; destruct H as [H _]; discriminate H.
  - intros req H. apply discord_send_message_requests in H as (u & Hu & ->).
    exists u. repeat split. exact Hu.
  - intros u tid -> Ht. now apply send_url_thread.
  - intros u ->. reflexivity.
Qed.

(** C6.  The keys of an edit payload are among [content], [embeds] and
    [allowed_mentions]; every request of the edit tool carries such a
    payload, and an input that supplies a create-only field is turned
    down by the schema, so that nothing of it is forwarded. *)
Theorem edit_forwards_only_the_whitelist (P : Platform) :
  (forall params : EditMessageInput.t,
      incl (keys (edit_payload params)) ["content"; "embeds"; "allowed_mentions"])
  /\ (forall raw req,
      In req (requests (call_edit_message P raw)) ->
      exists params u,
        EditMessageSchema P raw = Some params /\
        method req = PATCH /\
        body req = JSON_stringify (JsObj (edit_payload params)) /\
        url req = URL_toString u)
  /\ (forall o k,
      In k ["username"; "avatar_url"; "tts"; "thread_id"; "thread_name"] ->
      In k (keys o) ->
      requests (call_edit_message P (JsObj o)) = []).
Proof.
  repeat split.
  - intros params k H. apply In_keys in H as [v H].
    apply edit_payload_entries in H. cbn. intuition.
  - intros raw req. unfold call_edit_message, callTool.
    destruct (EditMessageSchema P raw) as [params|]; [|cbn; intros []].
    intros H.
    assert (Hr : In req (requests (discord_edit_message P params))).
    { unfold requests, bind in *.
      destruct (discord_edit_message P params) as [log [r|e]]; cbn in *;
        [now rewrite List.app_nil_r in H | exact H]. }
    apply discord_edit_message_requests in Hr as (u & Hu & ->).
    exists params, u. repeat split.
  - intros o k Hk Ho. unfold call_edit_message, callTool.
    replace (EditMessageSchema P (JsObj o)) with (@None EditMessageInput.t);
      [reflexivity|].
    unfold EditMessageSchema, strict_object.
    replace (forallb _ (keys o)) with false; [reflexivity|].
    symmetry. apply not_true_is_false. intros Hall.
    rewrite forallb_forall in Hall. specialize (Hall k Ho).
    cbn in Hk. cbn in Hall.
    repeat destruct Hk as [<-|Hk]; try discriminate Hall. destruct Hk.
Qed.

(** C7.  An entry of the send payload stands for a source value that
    is present and truthy (a string that is not empty, [true], a list
    that is not empty, an object), and holds that value; the payload
    built for the input [{content: "hi"}] is the one entry
    [content: "hi"]. *)
Theorem send_payload_has_only_truthy_sources (P : Platform) :
  (forall params k v,
      In (k, v) (send_payload params) ->
      truthy v = true /\
      ((k = "content" /\ exists s,
          SendMessageInput.content params = Some s /\ s <> "" /\ v = JsStr s)
       \/ (k = "username" /\ exists s,
          SendMessageInput.username params = Some s /\ s <> "" /\ v = JsStr s)
       \/ (k = "avatar_url" /\ exists s,
          SendMessageInput.avatar_url params = Some s /\ s <> "" /\ v = JsStr s)
       \/ (k = "tts" /\ SendMessageInput.tts params = true /\ v = JsBool true)
       \/ (k = "embeds" /\ exists l,
          SendMessageInput.embeds params = Some l /\ l <> [] /\
          v = js_of_embeds l)
       \/ (k = "allowed_mentions" /\ exists m,
          SendMessageInput.allowed_mentions params = Some m /\
          v = js_of_mentions m)
       \/ (k = "thread_name" /\ exists s,
          SendMessageInput.thread_name params = Some s /\ s <> "" /\
          v = JsStr s)))
  /\ SendMessageSchema P (JsObj [("content", JsStr "hi")])
     = Some (only_content "hi")
  /\ send_payload (only_content "hi") = [("content", JsStr "hi")].
Proof.
  split; [|split; reflexivity].
  intros params k v H. pose proof (send_payload_entries params k v H) as Hs.
  split; [|exact Hs].
  repeat destruct Hs as [Hs|Hs]; destruct Hs as [_ Hs];
    try (destruct Hs as (s & _ & Hn & ->); cbn;
         now destruct (String.eqb_spec s ""));
    try (destruct Hs as (l & _ & _ & ->); reflexivity);
    try (destruct Hs as (m & _ & ->); reflexivity).
  destruct Hs as [_ ->]. reflexivity.
Qed.

(** C8.  A delete whose response has a success status is a success
    carrying the message identifier, whatever the body of the response
    is: empty, or even unreadable, as the body is never read. *)
Theorem delete_succeeds_without_reading_the_body (P : Platform)
    (params : DeleteMessageInput.t) (u : URL) (r : Response) :
  URL_new P (message_url P (DeleteMessageInput.message_id params)) = Normal u ->
  fetch P (delete_request u) = Normal r ->
  ok r = true ->
  discord_delete_message P params
  = ([delete_request u],
     Normal
       {| content :=
            [text_content
               ("メッセージを削除しました" ++ LF ++ "ID: " ++
                DeleteMessageInput.message_id params)];
          structuredContent :=
            Some (JsObj [("success", JsBool true);
                         ("message_id",
                          JsStr (DeleteMessageInput.message_id params))]);
          isError := None |}).
Proof.
  intros Hu Hf Hok. unfold discord_delete_message.
  pose proof (makeRequest_delete P (URL_toString u) DELETE None r Hf Hok
                eq_refl) as Hm.
  rewrite (deleteDiscordMessage_returned P _ u _ Hu Hm). reflexivity.
Qed.




(* ================================================================== *)
(** ** The schemas *)

(** Inversion of an accepted chain of [let?]. *)
Ltac accepted H :=
  repeat match type of H with
  | match ?x with Some _ => _ | None => None end = Some _ =>
      let E := fresh "E" in destruct x eqn:E; [|discriminate H]
  | (if ?x then _ else None) = Some _ =>
      let E := fresh "E" in destruct x eqn:E; [|discriminate H]
  end.

Lemma max_length_bound (n : N) (p : Schema string) (v : JsValue) (a : string) :
  (forall s b, p (JsStr s) = Some b -> b = s) ->
  max_length n p v = Some a -> string_within n v.
Proof.
  intros Hp H s ->. unfold max_length in H. accepted H.
  apply Hp in E. subst. now apply N.leb_le.
Qed.

Lemma z_string_id (s b : string) : z_string (JsStr s) = Some b -> b = s.
Proof. now intros [= ->]. Qed.

Lemma min_length_id (n : N) (s b : string) :
  min_length n z_string (JsStr s) = Some b -> b = s.
Proof. unfold min_length. cbn. destruct (n <=? js_length s)%N; now intros [= ->]. Qed.

Lemma optional_bound {A} (p : Schema A) (v : JsValue) (a : option A)
    (Q : JsValue -> Prop) :
  Q JsUndefined -> (forall x, p v = Some x -> Q v) ->
  optional p v = Some a -> Q v.
Proof.
  intros Hu Hp H. unfold optional in H.
  destruct v; try exact Hu; accepted H; eauto.
Qed.

Lemma string_within_undefined (n : N) : string_within n JsUndefined.
Proof. intros s [=]. Qed.

Lemma array_within_undefined (n : N) : array_within n JsUndefined.
Proof. intros s [=]. Qed.

Lemma parse_items_length {A} (p : Schema A) (l : list JsValue) (l' : list A) :
  parse_items p l = Some l' -> List.length l' = List.length l.
Proof.
  revert l'. induction l as [|x l IH]; intros l' H; cbn in H.
  - now injection H as <-.
  - accepted H. injection H as <-. cbn. f_equal. now apply IH.
Qed.

Lemma parse_items_each {A} (p : Schema A) (l : list JsValue) (l' : list A)
    (e : JsValue) :
  parse_items p l = Some l' -> In e l -> exists x, p e = Some x.
Proof.
  revert l'. induction l as [|x l IH]; intros l' H Hin; [destruct Hin|].
  cbn in H. accepted H. destruct Hin as [<-|Hin]; eauto.
Qed.

Lemma max_items_bound {A} (n : N) (p : Schema A) (v : JsValue) (a : list A) :
  max_items n (z_array p) v = Some a ->
  array_within n v /\
  (forall l e, v = JsArr l -> In e l -> exists x, p e = Some x).
Proof.
  intros H. unfold max_items, z_array in H. accepted H.
  injection H as <-. split.
  - intros l' ->. apply N.leb_le in E0. unfold array_length in *.
    now rewrite <- (parse_items_length _ _ _ E).
  - intros l' e -> Hin. eapply parse_items_each; eassumption.
Qed.

Lemma color_bound (v : JsValue) (a : option Z) :
  optional (max_value 16777215 (min_value 0 z_number_int)) v = Some a ->
  color_within v.
Proof.
  apply optional_bound; [now left|].
  intros x H. unfold max_value, min_value, z_number_int in H.
  destruct v as [| | |[z|]| | |]; try discriminate H. accepted H.
  accepted E. injection E as <-.
  right. exists z. split; [reflexivity|].
  apply Z.leb_le in E0, E1. lia.
Qed.

Section Schemas.
Variable P : Platform.

Lemma footer_bound (v : JsValue) (a : option EmbedFooter.t) :
    optional (EmbedFooterSchema P) v = Some a ->
    string_within 2048 (js_get_opt v "text").
Proof.
    apply (optional_bound _ _ _
             (fun v => string_within 2048 (js_get_opt v "text")));
      [apply string_within_undefined|].
    intros x H. unfold EmbedFooterSchema, strict_object in H.
    destruct v; try discriminate H. accepted H. unfold prop in E0.
    eapply max_length_bound; [|exact E0]. apply min_length_id.
Qed.

Lemma author_bound (v : JsValue) (a : option EmbedAuthor.t) :
    optional (EmbedAuthorSchema P) v = Some a ->
    string_within 256 (js_get_opt v "name").
Proof.
    apply (optional_bound _ _ _
             (fun v => string_within 256 (js_get_opt v "name")));
      [apply string_within_undefined|].
    intros x H. unfold EmbedAuthorSchema, strict_object in H.
    destruct v; try discriminate H. accepted H. unfold prop in E0.
    eapply max_length_bound; [|exact E0]. apply min_length_id.
Qed.

Lemma EmbedSchema_bounds (e : JsValue) (x : Embed.t) :
    EmbedSchema P e = Some x -> embed_within_bounds e.
Proof.
    intros H. unfold EmbedSchema, strict_object in H.
    destruct e as [| | | | | |o]; try discriminate H. accepted H.
    unfold prop in *. unfold embed_within_bounds. cbn [js_get_opt].
    repeat split.
    - revert E0. apply optional_bound; [apply string_within_undefined|].
      intros s. apply max_length_bound, z_string_id.
    - revert E2. apply optional_bound; [apply string_within_undefined|].
      intros s. apply max_length_bound, z_string_id.
    - eapply footer_bound; eassumption.
    - eapply author_bound; eassumption.
    - revert E9. apply optional_bound; [apply array_within_undefined|].
      intros s Hs. now apply max_items_bound in Hs.
    - eapply color_bound; eassumption.
Qed.

Lemma embeds_bound (v : JsValue) (a : option (list Embed.t)) :
    optional (max_items MAX_EMBEDS (z_array (EmbedSchema P))) v = Some a ->
    array_within 10 v /\
    (forall l e, v = JsArr l -> In e l -> embed_within_bounds e).
Proof.
    apply (optional_bound _ _ _
             (fun v => array_within 10 v /\
                       (forall l e, v = JsArr l -> In e l ->
                                    embed_within_bounds e))).
    - split; [apply array_within_undefined | intros l e [=]].
    - intros x H. apply max_items_bound in H as [H1 H2]. split; [exact H1|].
      intros l e Hv Hin. destruct (H2 l e Hv Hin) as [y Hy].
      eapply EmbedSchema_bounds; eassumption.
Qed.

Lemma content_bound (v : JsValue) (a : option string) :
    optional (max_length MAX_CONTENT_LENGTH (min_length 1 z_string)) v = Some a ->
    string_within 2000 v.
Proof.
    apply optional_bound; [apply string_within_undefined|].
    intros s. apply max_length_bound, min_length_id.
Qed.

Lemma SendMessageSchema_bounds (raw : JsValue) (p : SendMessageInput.t) :
    SendMessageSchema P raw = Some p -> message_within_bounds raw.
Proof.
    intros H. unfold SendMessageSchema, strict_object in H.
    destruct raw as [| | | | | |o]; try discriminate H. accepted H.
    unfold prop in *. unfold message_within_bounds. cbn [js_get_opt].
    repeat match goal with
    | |- _ /\ _ => split
    | H : optional _ ?v = Some _ |- string_within 2000 ?v =>
        eapply content_bound; exact H
    | H : optional _ ?v = Some _ |- string_within _ ?v =>
        revert H; apply optional_bound; [apply string_within_undefined|];
        intros s; apply max_length_bound, z_string_id
    | H : optional _ ?v = Some _ |- array_within _ ?v =>
        apply embeds_bound in H as [H _]; exact H
    | H : optional _ ?v = Some _ |- forall l e, ?v = _ -> _ =>
        apply embeds_bound in H as [_ H]; exact H
    end.
Qed.

Lemma strict_object_key {A} (shape : list string) (build : JsProps -> option A)
      (o : JsProps) (a : A) (k : string) :
    strict_object shape build (JsObj o) = Some a ->
    ~ In k shape -> obj_get JsUndefined o k = JsUndefined.
Proof.
    unfold strict_object. intros H Hk.
    destruct (forallb _ (keys o)) eqn:E; [|discriminate H]. clear H.
    rewrite forallb_forall in E.
    induction o as [|[k' v] o IH]; [reflexivity|]. cbn [obj_get].
    destruct (String.eqb_spec k' k).
    - subst k'. specialize (E k (or_introl eq_refl)).
      apply existsb_exists in E as (x & Hx & Hxk).
      apply String.eqb_eq in Hxk. subst x. contradiction.
    - apply IH. intros x Hx. apply E. now right.
Qed.

Lemma EditMessageSchema_bounds (raw : JsValue) (p : EditMessageInput.t) :
    EditMessageSchema P raw = Some p -> message_within_bounds raw.
Proof.
    intros H. pose proof H as Hs. unfold EditMessageSchema in Hs.
    unfold EditMessageSchema, strict_object in H.
    destruct raw as [| | | | | |o]; try discriminate H. accepted H.
    unfold prop in *. unfold message_within_bounds. cbn [js_get_opt].
    rewrite (strict_object_key _ _ _ _ "username" Hs)
      by (cbn; intuition discriminate).
    rewrite (strict_object_key _ _ _ _ "thread_name" Hs)
      by (cbn; intuition discriminate).
    repeat match goal with
    | |- _ /\ _ => split
    | |- string_within _ JsUndefined => apply string_within_undefined
    | H : optional _ ?v = Some _ |- string_within 2000 ?v =>
        eapply content_bound; exact H
    | H : optional _ ?v = Some _ |- array_within _ ?v =>
        apply embeds_bound in H as [H _]; exact H
    | H : optional _ ?v = Some _ |- forall l e, ?v = _ -> _ =>
        apply embeds_bound in H as [_ H]; exact H
    end.
Qed.
End Schemas.

(** C4.  An input the send or the edit schema accepts is within every
    bound: content at most 2000, title 256, description 4096, footer
    text 2048, author name 256, username 80, thread name 100, at most
    10 embeds and 25 fields an embed, and a colour that is an integer
    of [0, 16777215]; an input outside a bound is turned down by the
    schema, and the tool sends nothing for it. *)
Theorem schema_accepts_only_within_bounds (P : Platform) (raw : JsValue) :
  (forall p, SendMessageSchema P raw = Some p -> message_within_bounds raw)
  /\ (forall p, EditMessageSchema P raw = Some p -> message_within_bounds raw)
  /\ (~ message_within_bounds raw ->
      SendMessageSchema P raw = None /\
      EditMessageSchema P raw = None /\
      call_send_message P raw = ([], Normal None) /\
      call_edit_message P raw = ([], Normal None)).
Proof.
  split; [|split].
  - apply SendMessageSchema_bounds.
  - apply EditMessageSchema_bounds.
  - intros Hn. unfold call_send_message, call_edit_message, callTool.
    destruct (SendMessageSchema P raw) as [p|] eqn:Es;
      [elim Hn; eapply SendMessageSchema_bounds; eassumption|].
    destruct (EditMessageSchema P raw) as [p|] eqn:Ee;
      [elim Hn; eapply EditMessageSchema_bounds; eassumption|].
    repeat split.
Qed.



(* ================================================================== *)
(** ** The claims on concrete runs *)

(** An empty send and an empty edit, on any platform. *)
Lemma missing_content_run :
  discord_send_message (demo_platform demo_webhook (Normal created)) empty_send
  = ([], Normal (error_result MISSING_CONTENT))
  /\ discord_edit_message (demo_platform demo_webhook (Normal created))
       (empty_edit "111")
     = ([], Normal (error_result MISSING_CONTENT)).
Proof.
  destruct (missing_content_is_a_bare_text
              (demo_platform demo_webhook (Normal created)))
    as (Hs & He & _).
  split.
  - apply Hs; left; reflexivity.
  - apply He; left; reflexivity.
Defined.

(** A webhook URL that does not parse makes [sendToDiscord] throw, and
    a rejection of message [{}] comes back as a [webhook_error]: neither
    is the [unknown_error] of the claim. *)
Lemma exception_or_webhook_error_instead_of_unknown_error :
  completion
    (sendToDiscord (demo_platform "not a url" (Normal created)) [] true None)
  = Throw (ErrorObj "TypeError" "Invalid URL")
  /\ completion
       (sendToDiscord (demo_platform demo_webhook brace_rejection) [] true None)
     = Normal {| result := JsNull;
                 error := Some (webhook_error JsUndefined JsUndefined
                                              JsUndefined) |}.
Proof. split; reflexivity. Qed.

(** The endpoint is unreachable: the three functions return the
    [unknown_error] of the rejection. *)
Lemma transport_failures_run :
  completion
    (sendToDiscord (demo_platform demo_webhook offline)
       [("content", JsStr "hi")] true None)
  = Normal {| result := JsNull; error := Some (unknown_error "fetch failed") |}
  /\ completion
       (editDiscordMessage (demo_platform demo_webhook offline) "111"
          [("content", JsStr "hi")])
     = Normal {| result := JsNull;
                 error := Some (unknown_error "fetch failed") |}
  /\ completion (deleteDiscordMessage (demo_platform demo_webhook offline) "111")
     = Normal (Some (unknown_error "fetch failed")).
Proof.
  destruct (transport_failures_are_returned
              (demo_platform demo_webhook offline)
              (ErrorObj "TypeError" "fetch failed"))
    as (Hs & He & Hd & Hc).
  specialize (Hc eq_refl). cbn [thrown_message] in Hc. rewrite <- Hc.
  split; [|split].
  - apply (Hs _ _ _ (url_of demo_webhook)); [reflexivity|].
    apply fetch_rejected. reflexivity.
  - apply (He _ _ (url_of (demo_webhook ++ "/messages/111")));
      [reflexivity|].
    apply fetch_rejected. reflexivity.
  - apply (Hd _ (url_of (demo_webhook ++ "/messages/111"))); [reflexivity|].
    apply fetch_rejected. reflexivity.
Defined.


(** An accepted input is within the bounds; one colour above
    16777215 puts the input outside, and the tool sends nothing. *)
Lemma schema_bounds_run :
  message_within_bounds (JsObj [("content", JsStr "hi")])
  /\ call_send_message (demo_platform demo_webhook (Normal created))
       (JsObj [("embeds",
                JsArr [JsObj [("color", JsNum (NumInt 16777216))]])])
     = ([], Normal None).
Proof.
  split.
  - apply (proj1 (schema_accepts_only_within_bounds
                    (demo_platform demo_webhook (Normal created))
                    (JsObj [("content", JsStr "hi")]))
             (only_content "hi")).
    reflexivity.
  - apply (proj2 (proj2 (schema_accepts_only_within_bounds
                           (demo_platform demo_webhook (Normal created)) _))).
    intros (_ & _ & _ & _ & H).
    destruct (H _ _ eq_refl (or_introl eq_refl)) as (_ & _ & _ & _ & _ & Hc).
    destruct Hc as [Hc | (z & Hz & Hr)]; [discriminate Hc|].
    injection Hz as <-. lia.
Defined.

(** A [thread_id] that is present and empty reaches neither the body
    nor the query: the request goes to the URL with [wait=true] alone. *)
Lemma empty_thread_id_is_not_applied :
  SendMessageInput.thread_id (with_thread "" (only_content "hi")) = Some ""
  /\ map url
       (requests
          (discord_send_message (demo_platform demo_webhook (Normal created))
             (with_thread "" (only_content "hi"))))
     = ["https://discord.com/api/webhooks/1/token?wait=true"].
Proof. split; reflexivity. Qed.

(** The thread [123] of a send goes to the query. *)
Lemma thread_id_run :
  params_get
    (searchParams
       (send_url (url_of demo_webhook) true
          (SendMessageInput.thread_id (with_thread "123" (only_content "hi")))))
    "thread_id" = Some "123"
  /\ exists u,
      simple_URL_new demo_webhook = Normal u /\
      url (send_request (url_of demo_webhook)
             (send_payload (with_thread "123" (only_content "hi"))) true
             (Some "123"))
      = URL_toString (send_url u true (Some "123")).
Proof.
  destruct (thread_id_goes_to_the_query
              (demo_platform demo_webhook (Normal created))
              (with_thread "123" (only_content "hi")))
    as (_ & _ & Hr & Ht & _).
  split.
  - apply Ht; [reflexivity | discriminate].
  - destruct (Hr (send_request (url_of demo_webhook)
                    (send_payload (with_thread "123" (only_content "hi")))
                    true (Some "123")))
      as (u & Hu & Hurl & _).
    + left. reflexivity.
    + exists u. split; [exact Hu | exact Hurl].
Defined.

(** An edit input with a [username] sends nothing; an edit of the
    content sends a PATCH whose body is the payload. *)
Lemma edit_whitelist_run :
  requests
    (call_edit_message (demo_platform demo_webhook (Normal created))
       (JsObj [("message_id", JsStr "111"); ("content", JsStr "hi");
               ("username", JsStr "bot")]))
  = []
  /\ exists params u,
      EditMessageSchema (demo_platform demo_webhook (Normal created))
        (JsObj [("message_id", JsStr "111"); ("content", JsStr "hi")])
      = Some params /\
      method (edit_request (url_of (demo_webhook ++ "/messages/111"))
                [("content", JsStr "hi")]) = PATCH /\
      body (edit_request (url_of (demo_webhook ++ "/messages/111"))
              [("content", JsStr "hi")])
      = JSON_stringify (JsObj (edit_payload params)) /\
      url (edit_request (url_of (demo_webhook ++ "/messages/111"))
             [("content", JsStr "hi")]) = URL_toString u.
Proof.
  destruct (edit_forwards_only_the_whitelist
              (demo_platform demo_webhook (Normal created)))
    as (_ & Hr & Hk).
  split.
  - apply (Hk _ "username"); cbn; tauto.
  - apply Hr. left. reflexivity.
Defined.

(** The one entry of the payload of [{content: "hi"}]. *)
Lemma send_payload_run :
  truthy (JsStr "hi") = true
  /\ send_payload (only_content "hi") = [("content", JsStr "hi")].
Proof.
  destruct (send_payload_has_only_truthy_sources
              (demo_platform demo_webhook (Normal created)))
    as (He & _ & Hp).
  split; [|exact Hp].
  apply (He (only_content "hi") "content" (JsStr "hi")).
  left. reflexivity.
Defined.

(** A delete answered 204 with an empty body. *)
Lemma delete_run :
  discord_delete_message (demo_platform demo_webhook (Normal no_content))
    (delete_of "111")
  = ([delete_request (url_of (demo_webhook ++ "/messages/111"))],
     Normal
       {| content :=
            [text_content ("メッセージを削除しました" ++ LF ++ "ID: 111")];
          structuredContent :=
            Some (JsObj [("success", JsBool true);
                         ("message_id", JsStr "111")]);
          isError := None |}).
Proof.
  apply (delete_succeeds_without_reading_the_body
           (demo_platform demo_webhook (Normal no_content)) (delete_of "111")
           (url_of (demo_webhook ++ "/messages/111")) no_content);
    reflexivity.
Defined.


(** The rejection of message [{}] is a [webhook_error]. *)
Lemma webhook_error_run :
  isWebhookError (convertError (ErrorObj "TypeError" "{}")) = true.
Proof.
  apply (proj1 (webhook_error_iff_json_message (ErrorObj "TypeError" "{}"))).
  exists "TypeError", "{}", (JsObj []). repeat split.
Defined.



(* ================================================================== *)
(** ** More on the client and the handlers *)

(** [makeRequest] as a pair: the one request, and the completion. *)
Lemma makeRequest_pair (P : Platform) (url : string) (method : Method)
    (body : option JsProps) :
  makeRequest P url method body
  = ([fetch_arguments url method body],
     completion (makeRequest P url method body)).
Proof.
  pose proof (makeRequest_requests P url method body) as H.
  unfold requests, completion in *.
  destruct (makeRequest P url method body) as [log c]. cbn in *. now subst.
Qed.

(** A completion of [makeRequest] gives the whole run back. *)
Lemma makeRequest_completion (P : Platform) (url : string) (method : Method)
    (body : option JsProps) (c : Completion JsValue) :
  completion (makeRequest P url method body) = c ->
  makeRequest P url method body = ([fetch_arguments url method body], c).
Proof. intros <-. apply makeRequest_pair. Qed.

Ltac check_passes Hc :=
  replace (negb _ && negb _) with false
    by (destruct Hc as [Hc | Hc]; rewrite Hc; cbn [negb andb];
        now rewrite ?andb_false_r).

Section Outcomes.
Variable P : Platform.

Lemma discord_send_message_thrown (params : SendMessageInput.t) (u : URL)
    (e : JsThrown) :
  nonempty_string (SendMessageInput.content params) = true \/
  nonempty_array (SendMessageInput.embeds params) = true ->
  URL_new P (WEBHOOK_URL P) = Normal u ->
  completion (makeRequest P
                (URL_toString (send_url u true (SendMessageInput.thread_id params)))
                POST (Some (send_payload params))) = Throw e ->
  discord_send_message P params
  = ([send_request u (send_payload params) true
        (SendMessageInput.thread_id params)],
     Normal (error_result ("エラー: " ++ formatError (convertError e)))).
Proof.
  intros Hc Hu Hm. unfold discord_send_message. check_passes Hc.
  apply makeRequest_completion in Hm.
  rewrite (sendToDiscord_thrown P _ _ _ u e Hu Hm). reflexivity.
Qed.

Lemma discord_send_message_returned (params : SendMessageInput.t) (u : URL)
    (v : JsValue) :
  nonempty_string (SendMessageInput.content params) = true \/
  nonempty_array (SendMessageInput.embeds params) = true ->
  URL_new P (WEBHOOK_URL P) = Normal u ->
  completion (makeRequest P
                (URL_toString (send_url u true (SendMessageInput.thread_id params)))
                POST (Some (send_payload params))) = Normal v ->
  discord_send_message P params
  = ([send_request u (send_payload params) true
        (SendMessageInput.thread_id params)],
     Normal
       {| content :=
            [text_content
               (if truthy v
                then "メッセージを送信しました" ++ LF ++ "ID: " ++
                     ToString (js_get_opt v "id") ++ LF ++ "チャンネル: " ++
                     ToString (js_get_opt v "channel_id")
                else "メッセージを送信しました")];
          structuredContent :=
            Some (JsObj [("success", JsBool true);
                         ("message_id", js_get_opt v "id");
                         ("channel_id", js_get_opt v "channel_id");
                         ("timestamp", js_get_opt v "timestamp")]);
          isError := None |}).
Proof.
  intros Hc Hu Hm. unfold discord_send_message. check_passes Hc.
  apply makeRequest_completion in Hm.
  rewrite (sendToDiscord_returned P _ _ _ u v Hu Hm). reflexivity.
Qed.

Lemma discord_edit_message_thrown (params : EditMessageInput.t) (u : URL)
    (e : JsThrown) :
  nonempty_string (EditMessageInput.content params) = true \/
  nonempty_array (EditMessageInput.embeds params) = true ->
  URL_new P (message_url P (EditMessageInput.message_id params)) = Normal u ->
  completion (makeRequest P (URL_toString u) PATCH
                (Some (edit_payload params))) = Throw e ->
  discord_edit_message P params
  = ([edit_request u (edit_payload params)],
     Normal (error_result ("エラー: " ++ formatError (convertError e)))).
Proof.
  intros Hc Hu Hm. unfold discord_edit_message. check_passes Hc.
  apply makeRequest_completion in Hm.
  rewrite (editDiscordMessage_thrown P _ _ u e Hu Hm). reflexivity.
Qed.

Lemma discord_edit_message_returned (params : EditMessageInput.t) (u : URL)
    (v : JsValue) :
  nonempty_string (EditMessageInput.content params) = true \/
  nonempty_array (EditMessageInput.embeds params) = true ->
  URL_new P (message_url P (EditMessageInput.message_id params)) = Normal u ->
  completion (makeRequest P (URL_toString u) PATCH
                (Some (edit_payload params))) = Normal v ->
  discord_edit_message P params
  = ([edit_request u (edit_payload params)],
     Normal
       (if truthy v
        then {| content :=
                  [text_content
                     ("メッセージを編集しました" ++ LF ++ "ID: " ++
                      ToString (js_get_opt v "id"))];
                structuredContent :=
                  Some (JsObj [("success", JsBool true);
                               ("message_id", js_get_opt v "id");
                               ("timestamp", js_get_opt v "timestamp")]);
                isError := None |}
        else error_result "エラー: メッセージの編集に失敗しました")).
Proof.
  intros Hc Hu Hm. unfold discord_edit_message. check_passes Hc.
  apply makeRequest_completion in Hm.
  rewrite (editDiscordMessage_returned P _ _ u v Hu Hm).
  cbn [bind error result]. now destruct (truthy v).
Qed.

Lemma discord_delete_message_thrown (params : DeleteMessageInput.t) (u : URL)
    (e : JsThrown) :
  URL_new P (message_url P (DeleteMessageInput.message_id params)) = Normal u ->
  completion (makeRequest P (URL_toString u) DELETE None) = Throw e ->
  discord_delete_message P params
  = ([delete_request u],
     Normal (error_result ("エラー: " ++ formatError (convertError e)))).
Proof.
  intros Hu Hm. unfold discord_delete_message.
  apply makeRequest_completion in Hm.
  rewrite (deleteDiscordMessage_thrown P _ u e Hu Hm). reflexivity.
Qed.
End Outcomes.

(* ================================================================== *)
(** ** Further properties of the client and of the tools *)

Lemma completion_pair {A} (l : list Request) (c : Completion A) :
  completion (l, c) = c.
Proof. reflexivity. Qed.

(** The requests of a tool, exactly: one request when the check of the
    handler passes and [new URL] accepts the text, none otherwise, and
    never a second one, whatever the endpoint answers. *)
Theorem tools_issue_one_request (P : Platform) :
  (forall params,
      requests (discord_send_message P params)
      = if negb (nonempty_string (SendMessageInput.content params))
           && negb (nonempty_array (SendMessageInput.embeds params))
        then []
        else match URL_new P (WEBHOOK_URL P) with
             | Normal u =>
                 [send_request u (send_payload params) true
                    (SendMessageInput.thread_id params)]
             | Throw _ => []
             end)
  /\ (forall params,
      requests (discord_edit_message P params)
      = if negb (nonempty_string (EditMessageInput.content params))
           && negb (nonempty_array (EditMessageInput.embeds params))
        then []
        else match URL_new P (message_url P (EditMessageInput.message_id params))
             with
             | Normal u => [edit_request u (edit_payload params)]
             | Throw _ => []
             end)
  /\ (forall params,
      requests (discord_delete_message P params)
      = match URL_new P (message_url P (DeleteMessageInput.message_id params))
        with
        | Normal u => [delete_request u]
        | Throw _ => []
        end).
Proof.
  repeat split; intros params.
  - destruct (negb _ && negb _) eqn:Hc.
    + unfold discord_send_message. now rewrite Hc.
    + assert (Hc' : nonempty_string (SendMessageInput.content params) = true \/
                    nonempty_array (SendMessageInput.embeds params) = true).
      { destruct (nonempty_string _); [now left|].
        destruct (nonempty_array _); [now right | discriminate Hc]. }
      destruct (URL_new P (WEBHOOK_URL P)) as [u|e] eqn:Hu.
      * destruct (completion (makeRequest P
          (URL_toString (send_url u true (SendMessageInput.thread_id params)))
          POST (Some (send_payload params)))) as [v|e] eqn:Hm.
        -- now rewrite (discord_send_message_returned P params u v Hc' Hu Hm).
        -- now rewrite (discord_send_message_thrown P params u e Hc' Hu Hm).
      * unfold discord_send_message. rewrite Hc.
        now rewrite (sendToDiscord_bad_url P _ _ _ e Hu).
  - destruct (negb _ && negb _) eqn:Hc.
    + unfold discord_edit_message. now rewrite Hc.
    + assert (Hc' : nonempty_string (EditMessageInput.content params) = true \/
                    nonempty_array (EditMessageInput.embeds params) = true).
      { destruct (nonempty_string _); [now left|].
        destruct (nonempty_array _); [now right | discriminate Hc]. }
      destruct (URL_new P (message_url P (EditMessageInput.message_id params)))
        as [u|e] eqn:Hu.
      * destruct (completion (makeRequest P (URL_toString u) PATCH
                                (Some (edit_payload params)))) as [v|e] eqn:Hm.
        -- now rewrite (discord_edit_message_returned P params u v Hc' Hu Hm).
        -- now rewrite (discord_edit_message_thrown P params u e Hc' Hu Hm).
      * unfold discord_edit_message, editDiscordMessage, lift, bind.
        rewrite Hc. fold (message_url P (EditMessageInput.message_id params)).
        now rewrite Hu.
  - destruct (URL_new P (message_url P (DeleteMessageInput.message_id params)))
      as [u|e] eqn:Hu.
    + destruct (completion (makeRequest P (URL_toString u) DELETE None))
        as [v|e] eqn:Hm.
      * apply makeRequest_completion in Hm.
        unfold discord_delete_message.
        now rewrite (deleteDiscordMessage_returned P _ u v Hu Hm).
      * now rewrite (discord_delete_message_thrown P params u e Hu Hm).
    + unfold discord_delete_message, deleteDiscordMessage, lift, bind.
      fold (message_url P (DeleteMessageInput.message_id params)).
      now rewrite Hu.
Qed.

(** A text [new URL] does not accept: the TypeError leaves the three
    client functions, and the handlers that reach them, as an
    exception; nothing is sent. *)
Theorem unparsable_url_escapes (P : Platform) (e : JsThrown) :
  (forall payload wait threadId,
      URL_new P (WEBHOOK_URL P) = Throw e ->
      sendToDiscord P payload wait threadId = ([], Throw e))
  /\ (forall messageId payload,
      URL_new P (message_url P messageId) = Throw e ->
      editDiscordMessage P messageId payload = ([], Throw e))
  /\ (forall messageId,
      URL_new P (message_url P messageId) = Throw e ->
      deleteDiscordMessage P messageId = ([], Throw e))
  /\ (forall params,
      URL_new P (WEBHOOK_URL P) = Throw e ->
      nonempty_string (SendMessageInput.content params) = true \/
      nonempty_array (SendMessageInput.embeds params) = true ->
      discord_send_message P params = ([], Throw e))
  /\ (forall params,
      URL_new P (message_url P (EditMessageInput.message_id params)) = Throw e ->
      nonempty_string (EditMessageInput.content params) = true \/
      nonempty_array (EditMessageInput.embeds params) = true ->
      discord_edit_message P params = ([], Throw e))
  /\ (forall params,
      URL_new P (message_url P (DeleteMessageInput.message_id params)) = Throw e ->
      discord_delete_message P params = ([], Throw e)).
Proof.
  repeat split.
  - intros. now apply sendToDiscord_bad_url.
  - intros messageId payload Hu. unfold editDiscordMessage, lift, bind.
    fold (message_url P messageId). now rewrite Hu.
  - intros messageId Hu. unfold deleteDiscordMessage, lift, bind.
    fold (message_url P messageId). now rewrite Hu.
  - intros params Hu Hc. unfold discord_send_message. check_passes Hc.
    now rewrite (sendToDiscord_bad_url P _ _ _ e Hu).
  - intros params Hu Hc. unfold discord_edit_message. check_passes Hc.
    unfold editDiscordMessage, lift, bind.
    fold (message_url P (EditMessageInput.message_id params)). now rewrite Hu.
  - intros params Hu. unfold discord_delete_message, deleteDiscordMessage,
      lift, bind.
    fold (message_url P (DeleteMessageInput.message_id params)). now rewrite Hu.
Qed.


(** A status that is not 2xx, at the caller: each tool returns the
    error result whose one text is [エラー: Discord Webhook error:],
    the status, the status text, a line feed and the body as read. *)
Theorem status_error_reaches_the_caller (P : Platform) (r : Response)
    (b : string) :
  unsigned_short (status r) -> ok r = false -> text r = Normal b ->
  let res :=
    error_result ("エラー: Discord Webhook error: " ++ digits_of_N (status r) ++
                  " " ++ statusText r ++ LF ++ b) in
  (forall params u,
      nonempty_string (SendMessageInput.content params) = true \/
      nonempty_array (SendMessageInput.embeds params) = true ->
      URL_new P (WEBHOOK_URL P) = Normal u ->
      fetch P (send_request u (send_payload params) true
                 (SendMessageInput.thread_id params)) = Normal r ->
      completion (discord_send_message P params) = Normal res)
  /\ (forall params u,
      nonempty_string (EditMessageInput.content params) = true \/
      nonempty_array (EditMessageInput.embeds params) = true ->
      URL_new P (message_url P (EditMessageInput.message_id params)) = Normal u ->
      fetch P (edit_request u (edit_payload params)) = Normal r ->
      completion (discord_edit_message P params) = Normal res)
  /\ (forall params u,
      URL_new P (message_url P (DeleteMessageInput.message_id params)) = Normal u ->
      fetch P (delete_request u) = Normal r ->
      completion (discord_delete_message P params) = Normal res).
Proof.
  intros Hs Hok Ht res.
  assert (Hf : forall e,
    e = Error_new (JSON_stringify (error_payload r b)) ->
    error_result ("エラー: " ++ formatError (convertError e)) = res).
  { intros e ->. rewrite (convertError_status r b Hs). unfold res, formatError.
    cbn [ToString]. now rewrite (Number_toString_status _ Hs). }
  repeat split.
  - intros params u Hc Hu Hr.
    pose proof (makeRequest_status P _ POST (Some (send_payload params)) r b
                  Hr Hok Ht) as Hm.
    apply (f_equal completion) in Hm. rewrite completion_pair in Hm.
    rewrite (discord_send_message_thrown P params u _ Hc Hu Hm).
    rewrite completion_pair. f_equal. now apply Hf.
  - intros params u Hc Hu Hr.
    pose proof (makeRequest_status P _ PATCH (Some (edit_payload params)) r b
                  Hr Hok Ht) as Hm.
    apply (f_equal completion) in Hm. rewrite completion_pair in Hm.
    rewrite (discord_edit_message_thrown P params u _ Hc Hu Hm).
    rewrite completion_pair. f_equal. now apply Hf.
  - intros params u Hu Hr.
    pose proof (makeRequest_status P _ DELETE None r b Hr Hok Ht) as Hm.
    apply (f_equal completion) in Hm. rewrite completion_pair in Hm.
    rewrite (discord_delete_message_thrown P params u _ Hu Hm).
    rewrite completion_pair. f_equal. now apply Hf.
Qed.

(** A failure that is not a status (fetch rejects, the body cannot be
    read, a successful body is not JSON), at the caller: the tool
    returns the error result of text [エラー: Unknown error:] and the
    message of the exception, unless that message is a JSON object. *)
Theorem transport_failure_reaches_the_caller (P : Platform) (e : JsThrown) :
  json_object_message e = false ->
  let res := error_result ("エラー: Unknown error: " ++ thrown_message e) in
  (forall params u,
      nonempty_string (SendMessageInput.content params) = true \/
      nonempty_array (SendMessageInput.embeds params) = true ->
      URL_new P (WEBHOOK_URL P) = Normal u ->
      transport_failure P
        (send_request u (send_payload params) true
           (SendMessageInput.thread_id params)) e ->
      completion (discord_send_message P params) = Normal res)
  /\ (forall params u,
      nonempty_string (EditMessageInput.content params) = true \/
      nonempty_array (EditMessageInput.embeds params) = true ->
      URL_new P (message_url P (EditMessageInput.message_id params)) = Normal u ->
      transport_failure P (edit_request u (edit_payload params)) e ->
      completion (discord_edit_message P params) = Normal res)
  /\ (forall params u,
      URL_new P (message_url P (DeleteMessageInput.message_id params)) = Normal u ->
      transport_failure P (delete_request u) e ->
      completion (discord_delete_message P params) = Normal res).
Proof.
  intros He res.
  assert (Hf : error_result ("エラー: " ++ formatError (convertError e)) = res).
  { now rewrite (convertError_unknown e He). }
  repeat split.
  - intros params u Hc Hu Hr. apply transport_failure_thrown in Hr.
    apply (f_equal completion) in Hr. rewrite completion_pair in Hr.
    rewrite (discord_send_message_thrown P params u _ Hc Hu Hr).
    rewrite completion_pair. now f_equal.
  - intros params u Hc Hu Hr. apply transport_failure_thrown in Hr.
    apply (f_equal completion) in Hr. rewrite completion_pair in Hr.
    rewrite (discord_edit_message_thrown P params u _ Hc Hu Hr).
    rewrite completion_pair. now f_equal.
  - intros params u Hu Hr. apply transport_failure_thrown in Hr.
    apply (f_equal completion) in Hr. rewrite completion_pair in Hr.
    rewrite (discord_delete_message_thrown P params u _ Hu Hr).
    rewrite completion_pair. now f_equal.
Qed.

(** A successful response whose body parses to a falsy value ([null],
    [false], [0], the empty string): the send tool still reports a
    success, with undefined identifiers, and the edit tool reports the
    failure of the edit. *)
Theorem falsy_body_send_succeeds_edit_fails (P : Platform) (r : Response)
    (t : string) (v : JsValue) :
  ok r = true -> text r = Normal t -> JSON_parse t = Some v ->
  truthy v = false ->
  (forall params u,
      nonempty_string (SendMessageInput.content params) = true \/
      nonempty_array (SendMessageInput.embeds params) = true ->
      URL_new P (WEBHOOK_URL P) = Normal u ->
      fetch P (send_request u (send_payload params) true
                 (SendMessageInput.thread_id params)) = Normal r ->
      completion (discord_send_message P params)
      = Normal
          {| content := [text_content "メッセージを送信しました"];
             structuredContent :=
               Some (JsObj [("success", JsBool true);
                            ("message_id", JsUndefined);
                            ("channel_id", JsUndefined);
                            ("timestamp", JsUndefined)]);
             isError := None |})
  /\ (forall params u,
      nonempty_string (EditMessageInput.content params) = true \/
      nonempty_array (EditMessageInput.embeds params) = true ->
      URL_new P (message_url P (EditMessageInput.message_id params)) = Normal u ->
      fetch P (edit_request u (edit_payload params)) = Normal r ->
      completion (discord_edit_message P params)
      = Normal (error_result "エラー: メッセージの編集に失敗しました")).
Proof.
  intros Hok Ht Hj Hv. split.
  - intros params u Hc Hu Hr.
    pose proof (makeRequest_json P _ POST (Some (send_payload params)) r t v
                  Hr Hok eq_refl Ht Hj) as Hm.
    apply (f_equal completion) in Hm. rewrite completion_pair in Hm.
    rewrite (discord_send_message_returned P params u v Hc Hu Hm).
    rewrite completion_pair, Hv.
    assert (Hg : forall k, js_get_opt v k = JsUndefined).
    { intros k. destruct v; try reflexivity; discriminate Hv. }
    now rewrite !Hg.
  - intros params u Hc Hu Hr.
    pose proof (makeRequest_json P _ PATCH (Some (edit_payload params)) r t v
                  Hr Hok eq_refl Ht Hj) as Hm.
    apply (f_equal completion) in Hm. rewrite completion_pair in Hm.
    rewrite (discord_edit_message_returned P params u v Hc Hu Hm).
    now rewrite completion_pair, Hv.
Qed.


(** The classifier answers a [webhook_error] or an [unknown_error]. *)
Lemma convertError_kind (e : JsThrown) :
  (exists a b c, convertError e = webhook_error a b c)
  \/ (exists m, convertError e = unknown_error m).
Proof.
  destruct e as [name m | v]; cbn; [|eauto].
  destruct (startsWith m "{"); [|eauto].
  destruct (JSON_parse m) as [v|]; [|eauto].
  destruct (js_get v "status"), (js_get v "statusText"), (js_get v "body");
    eauto 6.
Qed.

Lemma error_text_is_no_validation_error (e : JsThrown) (field message : string) :
  error_result ("エラー: " ++ formatError (convertError e))
  <> error_result ("エラー: " ++ formatError (validation_error field message)).
Proof.
  unfold error_result, text_content. intros H.
  injection H as H. revert H.
  destruct (convertError_kind e) as [(a & b & c & ->) | (m & ->)];
    cbn; discriminate.
Qed.

(** No tool ever reports a [validation_error]: whatever the platform
    and the parameters, the result of a handler is never the error
    result that renders a [validation_error], so that case of
    [formatError] is never reached from the three tools. *)
Theorem tools_never_report_a_validation_error (P : Platform)
    (field message : string) :
  let res :=
    error_result ("エラー: " ++ formatError (validation_error field message)) in
  (forall params, completion (discord_send_message P params) <> Normal res)
  /\ (forall params, completion (discord_edit_message P params) <> Normal res)
  /\ (forall params, completion (discord_delete_message P params) <> Normal res).
Proof.
  intros res. repeat split; intros params H.
  - destruct (negb (nonempty_string (SendMessageInput.content params))
              && negb (nonempty_array (SendMessageInput.embeds params))) eqn:Hc.
    + unfold discord_send_message in H. rewrite Hc in H. cbn in H.
      discriminate H.
    + assert (Hc' : nonempty_string (SendMessageInput.content params) = true \/
                    nonempty_array (SendMessageInput.embeds params) = true).
      { destruct (nonempty_string _); [now left|].
        destruct (nonempty_array _); [now right | discriminate Hc]. }
      destruct (URL_new P (WEBHOOK_URL P)) as [u|e] eqn:Hu.
      * destruct (completion (makeRequest P
          (URL_toString (send_url u true (SendMessageInput.thread_id params)))
          POST (Some (send_payload params)))) as [v|e] eqn:Hm.
        -- rewrite (discord_send_message_returned P params u v Hc' Hu Hm) in H.
           discriminate H.
        -- rewrite (discord_send_message_thrown P params u e Hc' Hu Hm) in H.
           apply (error_text_is_no_validation_error e field message).
           unfold res in H. rewrite completion_pair in H. congruence.
      * unfold discord_send_message in H. rewrite Hc in H.
        rewrite (sendToDiscord_bad_url P _ _ _ e Hu) in H. discriminate H.
  - destruct (negb (nonempty_string (EditMessageInput.content params))
              && negb (nonempty_array (EditMessageInput.embeds params))) eqn:Hc.
    + unfold discord_edit_message in H. rewrite Hc in H. cbn in H.
      discriminate H.
    + assert (Hc' : nonempty_string (EditMessageInput.content params) = true \/
                    nonempty_array (EditMessageInput.embeds params) = true).
      { destruct (nonempty_string _); [now left|].
        destruct (nonempty_array _); [now right | discriminate Hc]. }
      destruct (URL_new P (message_url P (EditMessageInput.message_id params)))
        as [u|e] eqn:Hu.
      * destruct (completion (makeRequest P (URL_toString u) PATCH
                                (Some (edit_payload params)))) as [v|e] eqn:Hm.
        -- rewrite (discord_edit_message_returned P params u v Hc' Hu Hm) in H.
           destruct (truthy v); cbn in H; discriminate H.
        -- rewrite (discord_edit_message_thrown P params u e Hc' Hu Hm) in H.
           apply (error_text_is_no_validation_error e field message).
           unfold res in H. rewrite completion_pair in H. congruence.
      * unfold discord_edit_message, editDiscordMessage, lift, bind in H.
        rewrite Hc in H.
        fold (message_url P (EditMessageInput.message_id params)) in H.
        rewrite Hu in H. discriminate H.
  - destruct (URL_new P (message_url P (DeleteMessageInput.message_id params)))
      as [u|e] eqn:Hu.
    + destruct (completion (makeRequest P (URL_toString u) DELETE None))
        as [v|e] eqn:Hm.
      * apply makeRequest_completion in Hm.
        unfold discord_delete_message in H.
        rewrite (deleteDiscordMessage_returned P _ u v Hu Hm) in H.
        discriminate H.
      * rewrite (discord_delete_message_thrown P params u e Hu Hm) in H.
        apply (error_text_is_no_validation_error e field message).
           unfold res in H. rewrite completion_pair in H. congruence.
    + unfold discord_delete_message, deleteDiscordMessage, lift, bind in H.
      fold (message_url P (DeleteMessageInput.message_id params)) in H.
      rewrite Hu in H. discriminate H.
Qed.



(* ================================================================== *)
(** ** The payloads, entry by entry *)

Lemma truthy_string_value (o : option string) (s : string) :
  o = Some s -> s <> "" -> truthy_string o = true.
Proof. intros -> H. apply truthy_string_spec. eauto. Qed.

Lemma nonempty_string_value (o : option string) (s : string) :
  o = Some s -> (0 < js_length s)%N -> nonempty_string o = true.
Proof.
  intros -> H. cbn. destruct (String.eqb_spec s "").
  - subst. cbn in H. lia.
  - cbn. now apply N.ltb_lt.
Qed.

(** The send payload keeps every truthy source under its key: nothing
    that passes its guard is dropped or overwritten, and the keys come
    once each, in the order of the assignments. *)
Theorem send_payload_keeps_every_truthy_source (params : SendMessageInput.t) :
  (forall s, SendMessageInput.content params = Some s ->
             (0 < js_length s)%N ->
             obj_get JsUndefined (send_payload params) "content" = JsStr s)
  /\ (forall s, SendMessageInput.username params = Some s -> s <> "" ->
             obj_get JsUndefined (send_payload params) "username" = JsStr s)
  /\ (forall s, SendMessageInput.avatar_url params = Some s -> s <> "" ->
             obj_get JsUndefined (send_payload params) "avatar_url" = JsStr s)
  /\ (SendMessageInput.tts params = true ->
             obj_get JsUndefined (send_payload params) "tts" = JsBool true)
  /\ (forall l, SendMessageInput.embeds params = Some l -> l <> [] ->
             obj_get JsUndefined (send_payload params) "embeds"
             = js_of_embeds l)
  /\ (forall m, SendMessageInput.allowed_mentions params = Some m ->
             obj_get JsUndefined (send_payload params) "allowed_mentions"
             = js_of_mentions m)
  /\ (forall s, SendMessageInput.thread_name params = Some s -> s <> "" ->
             obj_get JsUndefined (send_payload params) "thread_name" = JsStr s)
  /\ keys (send_payload params)
     = filter (obj_has (send_payload params))
         ["content"; "username"; "avatar_url"; "tts"; "embeds";
          "allowed_mentions"; "thread_name"]
  /\ NoDup (keys (send_payload params)).
Proof.
  unfold send_payload.
  repeat split.
  - intros s Hs Hl. rewrite (nonempty_string_value _ s Hs Hl), Hs.
    destruct (truthy_string (SendMessageInput.username params)),
      (truthy_string (SendMessageInput.avatar_url params)),
      (SendMessageInput.tts params),
      (nonempty_array (SendMessageInput.embeds params)),
      (present (SendMessageInput.allowed_mentions params)),
      (truthy_string (SendMessageInput.thread_name params)); reflexivity.
  - intros s Hs Hl. rewrite (truthy_string_value _ s Hs Hl), Hs.
    destruct (nonempty_string (SendMessageInput.content params)),
      (truthy_string (SendMessageInput.avatar_url params)),
      (SendMessageInput.tts params),
      (nonempty_array (SendMessageInput.embeds params)),
      (present (SendMessageInput.allowed_mentions params)),
      (truthy_string (SendMessageInput.thread_name params)); reflexivity.
  - intros s Hs Hl. rewrite (truthy_string_value _ s Hs Hl), Hs.
    destruct (nonempty_string (SendMessageInput.content params)),
      (truthy_string (SendMessageInput.username params)),
      (SendMessageInput.tts params),
      (nonempty_array (SendMessageInput.embeds params)),
      (present (SendMessageInput.allowed_mentions params)),
      (truthy_string (SendMessageInput.thread_name params)); reflexivity.
  - intros ->.
    destruct (nonempty_string (SendMessageInput.content params)),
      (truthy_string (SendMessageInput.username params)),
      (truthy_string (SendMessageInput.avatar_url params)),
      (nonempty_array (SendMessageInput.embeds params)),
      (present (SendMessageInput.allowed_mentions params)),
      (truthy_string (SendMessageInput.thread_name params)); reflexivity.
  - intros l Hs Hl.
    replace (nonempty_array (SendMessageInput.embeds params)) with true
      by (symmetry; apply nonempty_array_spec; eauto).
    rewrite Hs.
    destruct (nonempty_string (SendMessageInput.content params)),
      (truthy_string (SendMessageInput.username params)),
      (truthy_string (SendMessageInput.avatar_url params)),
      (SendMessageInput.tts params),
      (present (SendMessageInput.allowed_mentions params)),
      (truthy_string (SendMessageInput.thread_name params)); reflexivity.
  - intros m Hs. rewrite Hs. cbn [present].
    destruct (nonempty_string (SendMessageInput.content params)),
      (truthy_string (SendMessageInput.username params)),
      (truthy_string (SendMessageInput.avatar_url params)),
      (SendMessageInput.tts params),
      (nonempty_array (SendMessageInput.embeds params)),
      (truthy_string (SendMessageInput.thread_name params)); reflexivity.
  - intros s Hs Hl. rewrite (truthy_string_value _ s Hs Hl), Hs.
    destruct (nonempty_string (SendMessageInput.content params)),
      (truthy_string (SendMessageInput.username params)),
      (truthy_string (SendMessageInput.avatar_url params)),
      (SendMessageInput.tts params),
      (nonempty_array (SendMessageInput.embeds params)),
      (present (SendMessageInput.allowed_mentions params)); reflexivity.
  - destruct (nonempty_string (SendMessageInput.content params)),
      (truthy_string (SendMessageInput.username params)),
      (truthy_string (SendMessageInput.avatar_url params)),
      (SendMessageInput.tts params),
      (nonempty_array (SendMessageInput.embeds params)),
      (present (SendMessageInput.allowed_mentions params)),
      (truthy_string (SendMessageInput.thread_name params)); reflexivity.
  - destruct (nonempty_string (SendMessageInput.content params)),
      (truthy_string (SendMessageInput.username params)),
      (truthy_string (SendMessageInput.avatar_url params)),
      (SendMessageInput.tts params),
      (nonempty_array (SendMessageInput.embeds params)),
      (present (SendMessageInput.allowed_mentions params)),
      (truthy_string (SendMessageInput.thread_name params));
      cbn [set_if obj_set keys map fst String.eqb Ascii.eqb Bool.eqb];
      repeat constructor; cbn; intuition discriminate.
Qed.

(** The edit payload likewise: each of the three sources that passes
    its guard is in the payload under its key, and the keys come once
    each, in the order of the assignments. *)
Theorem edit_payload_keeps_every_truthy_source (params : EditMessageInput.t) :
  (forall s, EditMessageInput.content params = Some s ->
             (0 < js_length s)%N ->
             obj_get JsUndefined (edit_payload params) "content" = JsStr s)
  /\ (forall l, EditMessageInput.embeds params = Some l -> l <> [] ->
             obj_get JsUndefined (edit_payload params) "embeds"
             = js_of_embeds l)
  /\ (forall m, EditMessageInput.allowed_mentions params = Some m ->
             obj_get JsUndefined (edit_payload params) "allowed_mentions"
             = js_of_mentions m)
  /\ keys (edit_payload params)
     = filter (obj_has (edit_payload params))
         ["content"; "embeds"; "allowed_mentions"]
  /\ NoDup (keys (edit_payload params)).
Proof.
  unfold edit_payload.
  repeat split.
  - intros s Hs Hl. rewrite (nonempty_string_value _ s Hs Hl), Hs.
    destruct (nonempty_array (EditMessageInput.embeds params)),
      (present (EditMessageInput.allowed_mentions params)); reflexivity.
  - intros l Hs Hl.
    replace (nonempty_array (EditMessageInput.embeds params)) with true
      by (symmetry; apply nonempty_array_spec; eauto).
    rewrite Hs.
    destruct (nonempty_string (EditMessageInput.content params)),
      (present (EditMessageInput.allowed_mentions params)); reflexivity.
  - intros m Hs. rewrite Hs. cbn [present].
    destruct (nonempty_string (EditMessageInput.content params)),
      (nonempty_array (EditMessageInput.embeds params)); reflexivity.
  - destruct (nonempty_string (EditMessageInput.content params)),
      (nonempty_array (EditMessageInput.embeds params)),
      (present (EditMessageInput.allowed_mentions params)); reflexivity.
  - destruct (nonempty_string (EditMessageInput.content params)),
      (nonempty_array (EditMessageInput.embeds params)),
      (present (EditMessageInput.allowed_mentions params));
      cbn [set_if obj_set keys map fst String.eqb Ascii.eqb Bool.eqb];
      repeat constructor; cbn; intuition discriminate.
Qed.

(* ================================================================== *)
(** ** The query of a send *)




(* ================================================================== *)
(** ** More on the schemas *)

Lemma strict_object_closed {A} (shape : list string)
    (build : JsProps -> option A) (v : JsValue) (a : A) :
  strict_object shape build v = Some a -> closed_shape shape v.
Proof.
  unfold strict_object. destruct v as [| | | | | |o]; try discriminate.
  destruct (forallb _ (keys o)) eqn:E; [|discriminate]. intros _.
  exists o. split; [reflexivity|]. intros k Hk.
  rewrite forallb_forall in E. specialize (E k Hk).
  apply existsb_exists in E as (x & Hx & Hxk).
  apply String.eqb_eq in Hxk. now subst.
Qed.

Lemma optional_closed {A} (shape : list string) (build : JsProps -> option A)
    (v : JsValue) (a : option A) :
  optional (strict_object shape build) v = Some a -> closed_if_given shape v.
Proof.
  apply (optional_bound _ _ _ (closed_if_given shape)); [now left|].
  intros x H. right. eapply strict_object_closed. exact H.
Qed.

Lemma fields_closed (n : N) (v : JsValue) (a : option (list EmbedField.t)) :
  optional (max_items n (z_array EmbedFieldSchema)) v = Some a ->
  forall l f, v = JsArr l -> In f l -> closed_shape ["name"; "value"; "inline"] f.
Proof.
  apply (optional_bound _ _ _
           (fun v => forall l f, v = JsArr l -> In f l ->
                                 closed_shape ["name"; "value"; "inline"] f)).
  - intros l f [=].
  - intros x H l f Hv Hin. apply max_items_bound in H as [_ H].
    destruct (H l f Hv Hin) as [y Hy].
    eapply strict_object_closed. exact Hy.
Qed.

Section Shapes.
Variable P : Platform.

Lemma EmbedSchema_closed (e : JsValue) (x : Embed.t) :
  EmbedSchema P e = Some x -> embed_closed e.
Proof.
  intros H. pose proof (strict_object_closed _ _ _ _ H) as Hc.
  unfold EmbedSchema, strict_object in H.
  destruct e as [| | | | | |o]; try discriminate H. accepted H.
  unfold prop in *. unfold embed_closed. cbn [js_get_opt].
  repeat match goal with
  | |- _ /\ _ => split
  | |- closed_shape _ (JsObj o) => exact Hc
  | H : optional (EmbedFooterSchema P) ?v = Some _
    |- closed_if_given _ (obj_get _ _ "footer") =>
      eapply optional_closed; exact H
  | H : optional (EmbedAuthorSchema P) ?v = Some _
    |- closed_if_given _ (obj_get _ _ "author") =>
      eapply optional_closed; exact H
  | H : optional (EmbedImageSchema P) (obj_get _ _ ?k) = Some _
    |- closed_if_given _ (obj_get _ _ ?k) =>
      eapply optional_closed; exact H
  | H : optional (max_items _ (z_array EmbedFieldSchema)) ?v = Some _
    |- forall l f, ?v = _ -> _ =>
      eapply fields_closed; exact H
  end.
Qed.

Lemma embeds_closed (n : N) (v : JsValue) (a : option (list Embed.t)) :
  optional (max_items n (z_array (EmbedSchema P))) v = Some a ->
  forall l e, v = JsArr l -> In e l -> embed_closed e.
Proof.
  apply (optional_bound _ _ _
           (fun v => forall l e, v = JsArr l -> In e l -> embed_closed e)).
  - intros l f [=].
  - intros x H l f Hv Hin. apply max_items_bound in H as [_ H].
    destruct (H l f Hv Hin) as [y Hy].
    eapply EmbedSchema_closed. exact Hy.
Qed.
End Shapes.

(** The schemas are closed at every level: an accepted input is an
    object with no key outside the schema, and so is every embed, every
    footer, image, thumbnail and author of an embed, every field of an
    embed, and the mention descriptor. *)
Theorem schemas_accept_no_unknown_key (P : Platform) (raw : JsValue) :
  (forall p, SendMessageSchema P raw = Some p ->
     closed_shape ["content"; "username"; "avatar_url"; "tts"; "embeds";
                   "allowed_mentions"; "thread_id"; "thread_name"] raw /\
     closed_if_given ["parse"; "roles"; "users"; "replied_user"]
                     (js_get_opt raw "allowed_mentions") /\
     (forall l e, js_get_opt raw "embeds" = JsArr l -> In e l ->
                  embed_closed e))
  /\ (forall p, EditMessageSchema P raw = Some p ->
     closed_shape ["message_id"; "content"; "embeds"; "allowed_mentions"] raw /\
     closed_if_given ["parse"; "roles"; "users"; "replied_user"]
                     (js_get_opt raw "allowed_mentions") /\
     (forall l e, js_get_opt raw "embeds" = JsArr l -> In e l ->
                  embed_closed e))
  /\ (forall p, DeleteMessageSchema raw = Some p ->
     closed_shape ["message_id"] raw).
Proof.
  split; [|split]; intros p H.
  - split; [eapply strict_object_closed; exact H|].
    unfold SendMessageSchema, strict_object in H.
    destruct raw as [| | | | | |o]; try discriminate H. accepted H.
    unfold prop in *. cbn [js_get_opt]. split.
    + match goal with
      | H : optional AllowedMentionsSchema _ = Some _ |- _ =>
          unfold AllowedMentionsSchema in H; eapply optional_closed; exact H
      end.
    + match goal with
      | H : optional (max_items _ (z_array (EmbedSchema P))) _ = Some _ |- _ =>
          eapply embeds_closed; exact H
      end.
  - split; [eapply strict_object_closed; exact H|].
    unfold EditMessageSchema, strict_object in H.
    destruct raw as [| | | | | |o]; try discriminate H. accepted H.
    unfold prop in *. cbn [js_get_opt]. split.
    + match goal with
      | H : optional AllowedMentionsSchema _ = Some _ |- _ =>
          unfold AllowedMentionsSchema in H; eapply optional_closed; exact H
      end.
    + match goal with
      | H : optional (max_items _ (z_array (EmbedSchema P))) _ = Some _ |- _ =>
          eapply embeds_closed; exact H
      end.
  - eapply strict_object_closed. exact H.
Qed.

Lemma z_string_reads : reads_strings z_string.
Proof. intros v b H. destruct v; try discriminate H. now injection H as ->. Qed.

Lemma max_length_reads (n : N) (q : Schema string) :
  reads_strings q -> reads_strings (max_length n q).
Proof.
  intros Hq v b H. unfold max_length in H. accepted H.
  injection H as <-. now apply Hq.
Qed.

Lemma min_length_reads (n : N) (q : Schema string) :
  reads_strings q -> reads_strings (min_length n q).
Proof.
  intros Hq v b H. unfold min_length in H. accepted H.
  injection H as <-. now apply Hq.
Qed.

Lemma z_url_reads (P : Platform) (q : Schema string) :
  reads_strings q -> reads_strings (z_url P q).
Proof.
  intros Hq v b H. unfold z_url in H. accepted H.
  injection H as <-. now apply Hq.
Qed.

Lemma optional_reads (q : Schema string) (v : JsValue) (a : option string) :
  reads_strings q -> optional q v = Some a ->
  a = string_of_js v /\ (v = JsUndefined \/ exists s, v = JsStr s).
Proof.
  intros Hq H. unfold optional in H.
  destruct (q v) as [b|] eqn:E.
  - pose proof (Hq v b E) as ->. injection H as <-.
    split; [reflexivity | right; eauto].
  - destruct v; try discriminate H. injection H as <-.
    split; [reflexivity | now left].
Qed.

Lemma min_length_positive (n : N) (q : Schema string) (v : JsValue) (b : string) :
  min_length n q v = Some b -> (n <= js_length b)%N.
Proof.
  unfold min_length. intros H. accepted H. injection H as <-.
  now apply N.leb_le.
Qed.

Lemma content_positive (v : JsValue) (a : option string) (s : string) :
  optional (max_length MAX_CONTENT_LENGTH (min_length 1 z_string)) v = Some a ->
  a = Some s -> (0 < js_length s)%N.
Proof.
  intros H ->. unfold optional in H.
  destruct (max_length MAX_CONTENT_LENGTH (min_length 1 z_string) v)
    as [b|] eqn:E.
  - assert (b = s) as -> by (destruct v; congruence).
    unfold max_length in E. accepted E. injection E as <-.
    apply min_length_positive in E0. lia.
  - destruct v; discriminate H.
Qed.

Lemma optional_default_boolean (v : JsValue) (b : bool) :
  optional_default false z_boolean v = Some b ->
  (v = JsUndefined /\ b = false) \/ v = JsBool b.
Proof.
  unfold optional_default, z_boolean.
  destruct v; try discriminate; intros [= <-]; auto.
Qed.

Ltac reads_string :=
  repeat first [ apply z_string_reads | apply max_length_reads
               | apply min_length_reads | apply z_url_reads ].

Lemma SendMessageSchema_fields (P : Platform) (o : JsProps)
    (p : SendMessageInput.t) :
  SendMessageSchema P (JsObj o) = Some p ->
  (SendMessageInput.content p = string_of_js (obj_get JsUndefined o "content")
   /\ string_or_missing (obj_get JsUndefined o "content"))
  /\ (SendMessageInput.username p
      = string_of_js (obj_get JsUndefined o "username")
      /\ string_or_missing (obj_get JsUndefined o "username"))
  /\ (SendMessageInput.avatar_url p
      = string_of_js (obj_get JsUndefined o "avatar_url")
      /\ string_or_missing (obj_get JsUndefined o "avatar_url"))
  /\ (SendMessageInput.thread_id p
      = string_of_js (obj_get JsUndefined o "thread_id")
      /\ string_or_missing (obj_get JsUndefined o "thread_id"))
  /\ (SendMessageInput.thread_name p
      = string_of_js (obj_get JsUndefined o "thread_name")
      /\ string_or_missing (obj_get JsUndefined o "thread_name"))
  /\ ((obj_get JsUndefined o "tts" = JsUndefined /\
       SendMessageInput.tts p = false)
      \/ obj_get JsUndefined o "tts" = JsBool (SendMessageInput.tts p))
  /\ (forall s, SendMessageInput.content p = Some s -> (0 < js_length s)%N).
Proof.
  intros H. unfold SendMessageSchema, strict_object in H. accepted H.
  unfold prop in *. injection H as <-. cbn.
  repeat match goal with
  | |- (_ = string_of_js _ /\ _) /\ _ => split
  | |- (_ \/ _) /\ _ => split
  | H : optional _ (obj_get _ _ ?k) = Some ?a
    |- ?a = string_of_js (obj_get _ _ ?k) /\ string_or_missing _ =>
      apply optional_reads in H; [exact H | reads_string]
  | H : optional_default _ _ _ = Some _ |- _ \/ _ =>
      apply optional_default_boolean in H; exact H
  | H : optional _ (obj_get _ _ "content") = Some ?a
    |- forall s, ?a = Some s -> _ =>
      intros ? ?; eapply content_positive; eassumption
  end.
Qed.

(** The send schema reads its input and alters nothing: the five
    strings of the parsed value are those of the input, each missing
    where the input has none, [tts] is the boolean of the input, or
    [false] where the input has none, and a content that is given has
    at least one character. *)
Theorem SendMessageSchema_reads_the_input (P : Platform) (o : JsProps)
    (p : SendMessageInput.t) :
  SendMessageSchema P (JsObj o) = Some p ->
  SendMessageInput.content p = string_of_js (obj_get JsUndefined o "content")
  /\ SendMessageInput.username p
     = string_of_js (obj_get JsUndefined o "username")
  /\ SendMessageInput.avatar_url p
     = string_of_js (obj_get JsUndefined o "avatar_url")
  /\ SendMessageInput.thread_id p
     = string_of_js (obj_get JsUndefined o "thread_id")
  /\ SendMessageInput.thread_name p
     = string_of_js (obj_get JsUndefined o "thread_name")
  /\ ((obj_get JsUndefined o "tts" = JsUndefined /\
       SendMessageInput.tts p = false)
      \/ obj_get JsUndefined o "tts" = JsBool (SendMessageInput.tts p))
  /\ (forall s, SendMessageInput.content p = Some s -> (0 < js_length s)%N).
Proof.
  intros H.
  destruct (SendMessageSchema_fields P o p H)
    as ((? & _) & (? & _) & (? & _) & (? & _) & (? & _) & ? & ?).
  repeat split; assumption.
Qed.

(** The edit schema likewise: the message identifier is a string of at
    least one character, the content is the string of the input,
    missing where the input has none and of at least one character
    where it has one. *)
Theorem EditMessageSchema_reads_the_input (P : Platform) (o : JsProps)
    (p : EditMessageInput.t) :
  EditMessageSchema P (JsObj o) = Some p ->
  obj_get JsUndefined o "message_id" = JsStr (EditMessageInput.message_id p)
  /\ (1 <= js_length (EditMessageInput.message_id p))%N
  /\ EditMessageInput.content p = string_of_js (obj_get JsUndefined o "content")
  /\ (forall s, EditMessageInput.content p = Some s -> (0 < js_length s)%N).
Proof.
  intros H. unfold EditMessageSchema, strict_object in H. accepted H.
  unfold prop in *. injection H as <-. cbn.
  repeat match goal with
  | |- _ /\ _ => split
  | H : min_length 1 z_string ?v = Some ?a |- ?v = JsStr ?a =>
      exact (min_length_reads 1 z_string z_string_reads _ _ H)
  | H : min_length 1 z_string _ = Some ?a |- (1 <= js_length ?a)%N =>
      eapply min_length_positive; exact H
  | H : optional _ (obj_get _ _ ?k) = Some ?a
    |- ?a = string_of_js (obj_get _ _ ?k) =>
      apply optional_reads in H; [exact (proj1 H) | reads_string]
  | H : optional _ (obj_get _ _ "content") = Some ?a
    |- forall s, ?a = Some s -> _ =>
      intros ? ?; eapply content_positive; eassumption
  end.
Qed.

(** The delete schema, exactly: it accepts the objects whose only key,
    if any, is [message_id] and whose [message_id] is a string of at
    least one character, and answers that string. *)
Theorem DeleteMessageSchema_exactly (v : JsValue) (p : DeleteMessageInput.t) :
  DeleteMessageSchema v = Some p <->
  exists o,
    v = JsObj o /\ incl (keys o) ["message_id"] /\
    obj_get JsUndefined o "message_id"
    = JsStr (DeleteMessageInput.message_id p) /\
    (1 <= js_length (DeleteMessageInput.message_id p))%N.
Proof.
  split.
  - intros H. destruct (strict_object_closed _ _ _ _ H) as (o & -> & Hk).
    exists o. split; [reflexivity | split; [exact Hk|]].
    unfold DeleteMessageSchema, strict_object in H. accepted H.
    unfold prop in *. injection H as <-. cbn. split.
    + exact (min_length_reads 1 z_string z_string_reads _ _ E0).
    + eapply min_length_positive; exact E0.
  - intros (o & -> & Hk & Hg & Hl).
    unfold DeleteMessageSchema, strict_object.
    replace (forallb _ (keys o)) with true.
    + unfold prop, min_length. rewrite Hg. cbn [z_string].
      apply N.leb_le in Hl. rewrite Hl. now destruct p.
    + symmetry. apply forallb_forall. intros k Hin.
      apply Hk in Hin. cbn in Hin. destruct Hin as [<-|[]]. reflexivity.
Qed.

(* ================================================================== *)
(** ** From the raw input to the body *)

(** Each key of the send payload, looked up: the value of its source
    under the guard of its assignment, nothing otherwise. *)
Lemma send_payload_lookup (params : SendMessageInput.t) :
  obj_get JsUndefined (send_payload params) "content"
  = (if nonempty_string (SendMessageInput.content params)
     then js_of_option JsStr (SendMessageInput.content params)
     else JsUndefined)
  /\ obj_get JsUndefined (send_payload params) "username"
     = (if truthy_string (SendMessageInput.username params)
        then js_of_option JsStr (SendMessageInput.username params)
        else JsUndefined)
  /\ obj_get JsUndefined (send_payload params) "avatar_url"
     = (if truthy_string (SendMessageInput.avatar_url params)
        then js_of_option JsStr (SendMessageInput.avatar_url params)
        else JsUndefined)
  /\ obj_get JsUndefined (send_payload params) "tts"
     = (if SendMessageInput.tts params then JsBool true else JsUndefined)
  /\ obj_get JsUndefined (send_payload params) "thread_name"
     = (if truthy_string (SendMessageInput.thread_name params)
        then js_of_option JsStr (SendMessageInput.thread_name params)
        else JsUndefined).
Proof.
  unfold send_payload.
  destruct (nonempty_string (SendMessageInput.content params)),
    (truthy_string (SendMessageInput.username params)),
    (truthy_string (SendMessageInput.avatar_url params)),
    (SendMessageInput.tts params),
    (nonempty_array (SendMessageInput.embeds params)),
    (present (SendMessageInput.allowed_mentions params)),
    (truthy_string (SendMessageInput.thread_name params));
    repeat split.
Qed.

Lemma truthy_string_of_js (v : JsValue) :
  string_or_missing v ->
  truthy_string (string_of_js v) = truthy v /\
  (truthy v = true -> js_of_option JsStr (string_of_js v) = v).
Proof. intros [-> | [s ->]]; cbn; auto. Qed.

(** From the raw input to the body of the request: for an accepted
    input the body holds the content of the input, its [username],
    [avatar_url] and [thread_name] where they are not empty, and [tts]
    where it is [true]; an empty string or a [false] is left out. *)
Theorem send_body_holds_the_input_fields (P : Platform) (o : JsProps)
    (p : SendMessageInput.t) :
  SendMessageSchema P (JsObj o) = Some p ->
  obj_get JsUndefined (send_payload p) "content"
  = obj_get JsUndefined o "content"
  /\ (forall k, In k ["username"; "avatar_url"; "thread_name"] ->
        obj_get JsUndefined (send_payload p) k
        = if truthy (obj_get JsUndefined o k)
          then obj_get JsUndefined o k else JsUndefined)
  /\ obj_get JsUndefined (send_payload p) "tts"
     = if truthy (obj_get JsUndefined o "tts") then JsBool true else JsUndefined.
Proof.
  intros H. destruct (send_payload_lookup p) as (Lc & Lu & La & Lt & Ln).
  destruct (SendMessageSchema_fields P o p H)
    as ((Hc & Vc) & (Hu & Vu) & (Ha & Va) & _ & (Hn & Vn) & Ht & Hp).
  split; [|split].
  - rewrite Lc, Hc. destruct Vc as [-> | [s Hs]]; [reflexivity|].
    rewrite Hs in *. cbn [string_of_js] in *.
    now rewrite (nonempty_string_value (Some s) s eq_refl (Hp s Hc)).
  - intros k [<- | [<- | [<- | []]]].
    + rewrite Lu, Hu. destruct (truthy_string_of_js _ Vu) as [-> Hj].
      destruct (truthy _); [now apply Hj | reflexivity].
    + rewrite La, Ha. destruct (truthy_string_of_js _ Va) as [-> Hj].
      destruct (truthy _); [now apply Hj | reflexivity].
    + rewrite Ln, Hn. destruct (truthy_string_of_js _ Vn) as [-> Hj].
      destruct (truthy _); [now apply Hj | reflexivity].
  - rewrite Lt. destruct Ht as [[-> ->] | ->]; [reflexivity|].
    cbn. now destruct (SendMessageInput.tts p).
Qed.

Lemma optional_array_reads {A} (n : N) (q : Schema A) (v : JsValue)
    (a : option (list A)) :
  optional (max_items n (z_array q)) v = Some a ->
  (v = JsUndefined /\ a = None)
  \/ (exists l l', v = JsArr l /\ a = Some l' /\
                   List.length l' = List.length l).
Proof.
  intros H. unfold optional in H.
  destruct (max_items n (z_array q) v) as [l'|] eqn:E.
  - right. unfold max_items, z_array in E. accepted E. injection E as <-.
    destruct v; try discriminate E0. injection H as <-.
    eexists _, _. repeat split. now apply parse_items_length in E0.
  - left. destruct v; try discriminate H. injection H as <-. auto.
Qed.

Lemma callTool_accepted {I} (schema : Schema I) (handler : I -> Eff ToolResult)
    (raw : JsValue) (params : I) :
  schema raw = Some params ->
  requests (callTool schema handler raw) = requests (handler params)
  /\ completion (callTool schema handler raw)
     = match completion (handler params) with
       | Normal r => Normal (Some r)
       | Throw e => Throw e
       end.
Proof.
  intros H. unfold callTool, requests, completion, bind. rewrite H.
  destruct (handler params) as [log [r|e]]; cbn; [|auto].
  now rewrite List.app_nil_r.
Qed.

(** What the check of the send handler adds to the schema: an
    accepted input without content and without embeds, or with an
    empty embed list, is answered by the error text and nothing is
    sent; any other accepted input passes the check, and is sent in one
    request when the webhook URL parses. *)
Theorem accepted_send_is_refused_without_content_and_embeds (P : Platform)
    (o : JsProps) (p : SendMessageInput.t) :
  SendMessageSchema P (JsObj o) = Some p ->
  (obj_get JsUndefined o "content" = JsUndefined ->
   obj_get JsUndefined o "embeds" = JsUndefined \/
   obj_get JsUndefined o "embeds" = JsArr [] ->
   call_send_message P (JsObj o)
   = ([], Normal (Some (error_result MISSING_CONTENT))))
  /\ ((exists s, obj_get JsUndefined o "content" = JsStr s) \/
      (exists e l, obj_get JsUndefined o "embeds" = JsArr (e :: l)) ->
      forall u, URL_new P (WEBHOOK_URL P) = Normal u ->
      requests (call_send_message P (JsObj o))
      = [send_request u (send_payload p) true (SendMessageInput.thread_id p)]).
Proof.
  intros H.
  destruct (SendMessageSchema_fields P o p H)
    as ((Hc & Vc) & _ & _ & _ & _ & _ & Hp).
  assert (He : (obj_get JsUndefined o "embeds" = JsUndefined /\
                SendMessageInput.embeds p = None)
               \/ (exists l l', obj_get JsUndefined o "embeds" = JsArr l /\
                                SendMessageInput.embeds p = Some l' /\
                                List.length l' = List.length l)).
  { pose proof H as H'. unfold SendMessageSchema, strict_object in H'.
    accepted H'. unfold prop in *. injection H' as <-. cbn.
    match goal with
    | H : optional (max_items _ _) _ = Some _ |- _ =>
        apply optional_array_reads in H; exact H
    end. }
  split.
  - intros Hn Hm. unfold call_send_message, callTool. rewrite H.
    unfold discord_send_message. rewrite Hc, Hn. cbn [string_of_js nonempty_string].
    replace (nonempty_array (SendMessageInput.embeds p)) with false;
      [reflexivity|].
    destruct He as [[_ ->] | (l & l' & Hl & -> & Hlen)]; [reflexivity|].
    destruct Hm as [Hm | Hm]; rewrite Hm in Hl; [discriminate Hl|].
    injection Hl as <-. now destruct l'.
  - intros Hg u Hu.
    destruct (callTool_accepted (SendMessageSchema P) (discord_send_message P)
                (JsObj o) p H) as [Hr _].
    unfold call_send_message. rewrite Hr.
    assert (Hk : nonempty_string (SendMessageInput.content p) = true \/
                 nonempty_array (SendMessageInput.embeds p) = true).
    { destruct Hg as [[s Hs] | (e & l & Hl)].
      - left. rewrite Hs in Hc. cbn in Hc.
        apply (nonempty_string_value _ s Hc). now apply Hp.
      - right. destruct He as [[He _] | (l0 & l' & Hl0 & -> & Hlen)];
          [congruence|].
        rewrite Hl in Hl0. injection Hl0 as <-.
        destruct l'; [discriminate Hlen | reflexivity]. }
    destruct (completion (makeRequest P
      (URL_toString (send_url u true (SendMessageInput.thread_id p)))
      POST (Some (send_payload p)))) as [v|e] eqn:Hm.
    + now rewrite (discord_send_message_returned P p u v Hk Hu Hm).
    + now rewrite (discord_send_message_thrown P p u e Hk Hu Hm).
Qed.



(* ================================================================== *)
(** ** The single-file server *)

(** The payload has no [thread_id] key, so the destructuring takes
    nothing out of it. *)
Lemma legacy_without_thread_id (parsed : Legacy.Parsed.t) :
  Legacy.without_thread_id (Legacy.payload_of parsed)
  = (JsUndefined, Legacy.payload_of parsed).
Proof.
  unfold Legacy.payload_of.
  destruct (nonempty_string (Legacy.Parsed.content parsed)),
    (truthy_string (Legacy.Parsed.username parsed)),
    (truthy_string (Legacy.Parsed.avatar_url parsed)),
    (Legacy.Parsed.tts parsed),
    (nonempty_array (Legacy.Parsed.embeds parsed)),
    (present (Legacy.Parsed.allowed_mentions parsed)),
    (truthy_string (Legacy.Parsed.thread_name parsed)); reflexivity.
Qed.

Section LegacyClient.
Variable P : Platform.
Variables (payload : JsProps) (u : URL).
Hypothesis Hu : URL_new P (WEBHOOK_URL P) = Normal u.

Let req := fetch_arguments (URL_toString u) POST (Some payload).

Lemma legacy_send_rejected (e : JsThrown) :
  fetch P req = Throw e ->
  Legacy.sendToDiscord P payload false
  = ([req], Normal (Legacy.Err (convertError e))).
Proof.
  intros H. unfold Legacy.sendToDiscord, Legacy.exchange, await_fetch, lift,
    bind, try_catch. rewrite Hu. cbn [fst snd]. fold req. now rewrite H.
Qed.

Lemma legacy_send_status (r : Response) (b : string) :
  fetch P req = Normal r -> ok r = false -> text r = Normal b ->
  Legacy.sendToDiscord P payload false
  = ([req],
     Normal (Legacy.Err
               (convertError
                  (Error_new (JSON_stringify (error_payload r b)))))).
Proof.
  intros H Hok Ht. unfold Legacy.sendToDiscord, Legacy.exchange, await_fetch,
    lift, bind, try_catch. rewrite Hu. cbn [fst snd]. fold req.
  rewrite H, Hok. cbn [negb]. now rewrite Ht.
Qed.

Lemma legacy_send_unreadable (r : Response) (e : JsThrown) :
  fetch P req = Normal r -> ok r = false -> text r = Throw e ->
  Legacy.sendToDiscord P payload false
  = ([req], Normal (Legacy.Err (convertError e))).
Proof.
  intros H Hok Ht. unfold Legacy.sendToDiscord, Legacy.exchange, await_fetch,
    lift, bind, try_catch. rewrite Hu. cbn [fst snd]. fold req.
  rewrite H, Hok. cbn [negb]. now rewrite Ht.
Qed.

Lemma legacy_send_ok (r : Response) :
  fetch P req = Normal r -> ok r = true ->
  Legacy.sendToDiscord P payload false = ([req], Normal (Legacy.Ok JsNull)).
Proof.
  intros H Hok. unfold Legacy.sendToDiscord, Legacy.exchange, await_fetch,
    lift, bind, try_catch. rewrite Hu. cbn [fst snd]. fold req.
  now rewrite H, Hok.
Qed.

(** Without [wait] the client never throws and never reads a
    successful body: its completion is a [Result]. *)
Lemma legacy_send_result :
  exists res, Legacy.sendToDiscord P payload false = ([req], Normal res).
Proof.
  destruct (fetch P req) as [r|e] eqn:H.
  - destruct (ok r) eqn:Hok.
    + eexists. exact (legacy_send_ok r H Hok).
    + destruct (text r) as [b|e] eqn:Ht.
      * eexists. exact (legacy_send_status r b H Hok Ht).
      * eexists. exact (legacy_send_unreadable r e H Hok Ht).
  - eexists. exact (legacy_send_rejected e H).
Qed.
End LegacyClient.

Ltac legacy_past_check Hs Hc :=
  unfold Legacy.callTool; rewrite String.eqb_refl, Hs;
  replace (negb _ && negb _) with false
    by (destruct Hc as [Hc | Hc]; rewrite Hc; cbn [negb andb];
        now rewrite ?andb_false_r);
  rewrite legacy_without_thread_id; cbn [truthy].

(** The older handler on an input without content and embeds: no
    request, and an error result whose structured content is a
    [validation_error] of field [content/embeds]. *)
Theorem legacy_missing_content_is_a_validation_error (P : Platform)
    (issues : JsValue -> string) (args : JsValue) (parsed : Legacy.Parsed.t) :
  Legacy.SendMessageSchema P args = Some parsed ->
  Legacy.Parsed.content parsed = None \/
  Legacy.Parsed.content parsed = Some "" ->
  Legacy.Parsed.embeds parsed = None \/ Legacy.Parsed.embeds parsed = Some [] ->
  exists res,
    Legacy.callTool P issues "send_message" args = ([], Normal res) /\
    isError res = Some true /\
    content res = [text_content ("エラー: " ++ Legacy.MISSING)] /\
    exists body,
      structuredContent res = Some body /\
      js_get_opt body "success" = JsBool false /\
      js_get_opt (js_get_opt body "error") "type" = JsStr "validation_error" /\
      js_get_opt (js_get_opt body "error") "field" = JsStr "content/embeds" /\
      js_get_opt (js_get_opt body "error") "message" = JsStr Legacy.MISSING.
Proof.
  intros Hs Hc He. unfold Legacy.callTool. rewrite String.eqb_refl, Hs.
  rewrite (nonempty_string_absent _ Hc), (nonempty_array_absent _ He).
  eexists. split; [reflexivity|]. repeat split.
  eexists. repeat split.
Qed.

(** The older handler never asks the endpoint to wait and never uses
    [thread_id]: its one request goes to the webhook URL as it is, with
    the payload as body, and a success status gives a success result
    whose three identifiers are undefined, whatever the body. *)
Theorem legacy_send_never_waits (P : Platform) (issues : JsValue -> string)
    (args : JsValue) (parsed : Legacy.Parsed.t) (u : URL) :
  Legacy.SendMessageSchema P args = Some parsed ->
  nonempty_string (Legacy.Parsed.content parsed) = true \/
  nonempty_array (Legacy.Parsed.embeds parsed) = true ->
  URL_new P (WEBHOOK_URL P) = Normal u ->
  let req := fetch_arguments (URL_toString u) POST
               (Some (Legacy.payload_of parsed)) in
  requests (Legacy.callTool P issues "send_message" args) = [req]
  /\ (forall r,
        fetch P req = Normal r -> ok r = true ->
        completion (Legacy.callTool P issues "send_message" args)
        = Normal
            {| content := [text_content "メッセージを送信しました"];
               structuredContent :=
                 Some (JsObj [("success", JsBool true);
                              ("message_id", JsUndefined);
                              ("channel_id", JsUndefined);
                              ("timestamp", JsUndefined)]);
               isError := Some false |}).
Proof.
  intros Hs Hc Hu req. split.
  - legacy_past_check Hs Hc.
    destruct (legacy_send_result P (Legacy.payload_of parsed) u Hu) as [res ->].
    destruct res; reflexivity.
  - intros r Hr Hok. legacy_past_check Hs Hc.
    now rewrite (legacy_send_ok P (Legacy.payload_of parsed) u Hu r Hr Hok).
Qed.


(** When the older handler throws: only for [send_message], with the
    ZodError of arguments the schema rejects, or with the TypeError of
    a webhook URL that does not parse once the check has passed. *)
Theorem legacy_throws_exactly (P : Platform) (issues : JsValue -> string)
    (name : string) (args : JsValue) (e : JsThrown) :
  completion (Legacy.callTool P issues name args) = Throw e <->
  name = "send_message" /\
  ((Legacy.SendMessageSchema P args = None /\
    e = ErrorObj "ZodError" (issues args))
   \/ exists parsed,
       Legacy.SendMessageSchema P args = Some parsed /\
       (nonempty_string (Legacy.Parsed.content parsed) = true \/
        nonempty_array (Legacy.Parsed.embeds parsed) = true) /\
       URL_new P (WEBHOOK_URL P) = Throw e).
Proof.
  unfold Legacy.callTool. destruct (String.eqb_spec name "send_message") as [->|Hn].
  2:{ split; [discriminate | intros [H _]; contradiction]. }
  destruct (Legacy.SendMessageSchema P args) as [parsed|] eqn:Hs.
  - destruct (negb (nonempty_string (Legacy.Parsed.content parsed))
              && negb (nonempty_array (Legacy.Parsed.embeds parsed))) eqn:Hc.
    + split; [discriminate|].
      intros (_ & [[H _] | (p & [= <-] & Hk & _)]); [discriminate H|].
      destruct Hk as [Hk | Hk]; rewrite Hk in Hc; cbn in Hc;
        [discriminate Hc | now rewrite andb_false_r in Hc].
    + assert (Hk : nonempty_string (Legacy.Parsed.content parsed) = true \/
                   nonempty_array (Legacy.Parsed.embeds parsed) = true).
      { destruct (nonempty_string _); [now left|].
        destruct (nonempty_array _); [now right | discriminate Hc]. }
      rewrite legacy_without_thread_id. cbn [truthy].
      destruct (URL_new P (WEBHOOK_URL P)) as [u|e'] eqn:Hu.
      * destruct (legacy_send_result P (Legacy.payload_of parsed) u Hu)
          as [res ->].
        split.
        -- destruct res; discriminate.
        -- intros (_ & [[H _] | (p & _ & _ & H)]); discriminate H.
      * unfold Legacy.sendToDiscord, lift, bind. rewrite Hu. cbn. split.
        -- intros [= <-]. split; [reflexivity|]. right. eauto.
        -- intros (_ & [[H _] | (p & _ & _ & [= <-])]);
             [discriminate H | reflexivity].
  - cbn. split.
    + intros [= <-]. auto.
    + intros (_ & [[_ ->] | (p & H & _)]); [reflexivity | discriminate H].
Qed.

(** What the older schema keeps of an object: the keys of the shape. *)
Lemma legacy_parse_shape_keys (shape : list (string * Schema JsValue))
    (o out : JsProps) :
  Legacy.parse_shape shape o = Some out -> incl (keys out) (keys shape).
Proof.
  revert out. induction shape as [|[k q] shape IH]; intros out H; cbn in H.
  - injection H as <-. intros x [].
  - accepted H. injection H as <-. specialize (IH _ eq_refl).
    destruct (obj_has o k || Legacy.is_defined j); cbn.
    + intros x [<- | Hx]; [now left | right; now apply IH].
    + intros x Hx. right. now apply IH.
Qed.

Lemma legacy_z_object_closed (shape : list (string * Schema JsValue))
    (v out : JsValue) :
  Legacy.z_object shape v = Some out -> closed_shape (keys shape) out.
Proof.
  unfold Legacy.z_object. destruct v; try discriminate. intros H. accepted H.
  injection H as <-. eexists. split; [reflexivity|].
  eapply legacy_parse_shape_keys. eassumption.
Qed.

(** The older schema: a content it accepts has 1 to 2000 characters
    and an embed list at most 10 items, the content and the thread
    identifier are the strings of the input, and the unknown keys of an
    embed are dropped: an embed of the parsed value has keys of the
    schema only. *)
Theorem legacy_schema_bounds_and_strips (P : Platform) (args : JsValue)
    (parsed : Legacy.Parsed.t) :
  Legacy.SendMessageSchema P args = Some parsed ->
  (forall s, Legacy.Parsed.content parsed = Some s ->
             (1 <= js_length s <= 2000)%N)
  /\ Legacy.Parsed.content parsed = string_of_js (js_get_opt args "content")
  /\ Legacy.Parsed.thread_id parsed = string_of_js (js_get_opt args "thread_id")
  /\ (forall l, Legacy.Parsed.embeds parsed = Some l ->
                (array_length l <= 10)%N)
  /\ (forall l e, Legacy.Parsed.embeds parsed = Some l -> In e l ->
        closed_shape ["title"; "url"; "description"; "timestamp"; "color";
                      "footer"; "image"; "thumbnail"; "author"; "fields"] e).
Proof.
  intros H. unfold Legacy.SendMessageSchema in H.
  destruct args as [| | | | | |o]; try discriminate H. accepted H.
  unfold prop in *. injection H as <-. cbn.
  match goal with
  | Hc : optional (max_length 2000 _) _ = Some ?c,
    Ht : optional z_string (obj_get _ _ "thread_id") = Some _,
    He : optional (max_items 10 _) _ = Some ?e |- _ =>
      rename Hc into Hcontent; rename Ht into Hthread; rename He into Hembeds;
      rename e into oe; rename c into oc
  end.
  assert (Hitems : forall (l : list JsValue),
            oe = Some l ->
            exists l', max_items 10 (z_array (Legacy.EmbedSchema P))
                         (obj_get JsUndefined o "embeds") = Some l' /\ l' = l).
  { intros l ->. unfold optional in Hembeds.
    destruct (max_items 10 _ _) as [l'|] eqn:E.
    - exists l'. split; [reflexivity|].
      destruct (obj_get JsUndefined o "embeds"); congruence.
    - destruct (obj_get JsUndefined o "embeds"); congruence. }
  split; [|split; [|split; [|split]]].
  - intros s Hs. split.
    + pose proof (content_positive _ _ s Hcontent Hs). lia.
    + subst oc. unfold optional in Hcontent.
      destruct (max_length 2000 (min_length 1 z_string) _) as [c|] eqn:E.
      * assert (c = s) as ->
          by (destruct (obj_get JsUndefined o "content"); congruence).
        unfold max_length in E. accepted E. injection E as <-.
        now apply N.leb_le.
      * destruct (obj_get JsUndefined o "content"); congruence.
  - apply optional_reads in Hcontent; [exact (proj1 Hcontent) | reads_string].
  - apply optional_reads in Hthread; [exact (proj1 Hthread) | reads_string].
  - intros l Hl. destruct (Hitems l Hl) as (l' & E & ->).
    unfold max_items in E. accepted E. injection E as <-.
    now apply N.leb_le.
  - intros l e Hl Hin. destruct (Hitems l Hl) as (l' & E & ->).
    unfold max_items, z_array in E. accepted E. injection E as <-.
    destruct (obj_get JsUndefined o "embeds") as [| | | | |items|];
      try discriminate.
    match goal with
    | Hp : parse_items _ _ = Some ?r |- _ =>
        clear - Hp Hin; revert r Hp Hin
    end.
    induction items as [|x items IH]; intros r Hp Hin; cbn in Hp.
    + injection Hp as <-. destruct Hin.
    + accepted Hp. injection Hp as <-. destruct Hin as [<- | Hin].
      * match goal with
        | Hx : Legacy.EmbedSchema P x = Some _ |- _ =>
            unfold Legacy.EmbedSchema in Hx;
            apply legacy_z_object_closed in Hx; exact Hx
        end.
      * eapply IH; [reflexivity | exact Hin].
Qed.



(* ================================================================== *)
(** ** Further concrete runs *)

Lemma unparsable_url_run :
  sendToDiscord (demo_platform "not a url" (Normal created))
    [("content", JsStr "hi")] true None
  = ([], Throw (ErrorObj "TypeError" "Invalid URL"))
  /\ discord_delete_message (demo_platform "not a url" (Normal no_content))
       (delete_of "111")
     = ([], Throw (ErrorObj "TypeError" "Invalid URL")).
Proof.
  split.
  - apply (proj1 (unparsable_url_escapes
                    (demo_platform "not a url" (Normal created))
                    (ErrorObj "TypeError" "Invalid URL"))).
    reflexivity.
  - destruct (unparsable_url_escapes
                (demo_platform "not a url" (Normal no_content))
                (ErrorObj "TypeError" "Invalid URL"))
      as (_ & _ & _ & _ & _ & H).
    apply H. reflexivity.
Defined.


Lemma status_error_at_the_caller_run :
  completion
    (discord_delete_message (demo_platform demo_webhook (Normal not_found))
       (delete_of "111"))
  = Normal
      (error_result
         ("エラー: Discord Webhook error: 404 Not Found" ++ LF ++
          "Unknown Message")).
Proof.
  destruct (status_error_reaches_the_caller
              (demo_platform demo_webhook (Normal not_found)) not_found
              "Unknown Message" eq_refl eq_refl eq_refl) as (_ & _ & H).
  apply (H (delete_of "111") (url_of (demo_webhook ++ "/messages/111")));
    reflexivity.
Defined.

Lemma transport_failure_at_the_caller_run :
  completion
    (discord_send_message (demo_platform demo_webhook offline)
       (only_content "hi"))
  = Normal (error_result "エラー: Unknown error: fetch failed").
Proof.
  destruct (transport_failure_reaches_the_caller
              (demo_platform demo_webhook offline)
              (ErrorObj "TypeError" "fetch failed") eq_refl) as (H & _).
  apply (H (only_content "hi") (url_of demo_webhook)).
  - left. reflexivity.
  - reflexivity.
  - apply fetch_rejected. reflexivity.
Defined.

Lemma falsy_body_run :
  completion
    (discord_edit_message (demo_platform demo_webhook (Normal null_body))
       (edit_content "111" "hi"))
  = Normal (error_result "エラー: メッセージの編集に失敗しました").
Proof.
  destruct (falsy_body_send_succeeds_edit_fails
              (demo_platform demo_webhook (Normal null_body)) null_body
              "null" JsNull eq_refl eq_refl eq_refl eq_refl) as (_ & H).
  apply (H (edit_content "111" "hi") (url_of (demo_webhook ++ "/messages/111")));
    try reflexivity.
  left. reflexivity.
Defined.


Lemma send_payload_keeps_run :
  obj_get JsUndefined (send_payload (named_content "bot" "hi")) "username"
  = JsStr "bot".
Proof.
  destruct (send_payload_keeps_every_truthy_source (named_content "bot" "hi"))
    as (_ & H & _).
  apply H; [reflexivity | discriminate].
Defined.

Lemma edit_payload_keeps_run :
  obj_get JsUndefined (edit_payload (edit_content "111" "hi")) "content"
  = JsStr "hi".
Proof.
  destruct (edit_payload_keeps_every_truthy_source (edit_content "111" "hi"))
    as (H & _).
  apply H; reflexivity.
Defined.


Lemma closed_schema_run :
  closed_shape ["message_id"] (JsObj [("message_id", JsStr "111")]).
Proof.
  destruct (schemas_accept_no_unknown_key
              (demo_platform demo_webhook (Normal created))
              (JsObj [("message_id", JsStr "111")])) as (_ & _ & H).
  apply (H (delete_of "111")). reflexivity.
Defined.

Lemma send_schema_reads_run :
  SendMessageInput.content (only_content "hi")
  = string_of_js (obj_get JsUndefined [("content", JsStr "hi")] "content").
Proof.
  apply (proj1 (SendMessageSchema_reads_the_input
                  (demo_platform demo_webhook (Normal created))
                  [("content", JsStr "hi")] (only_content "hi") eq_refl)).
Defined.

Lemma edit_schema_reads_run :
  obj_get JsUndefined [("message_id", JsStr "111"); ("content", JsStr "hi")]
    "message_id"
  = JsStr (EditMessageInput.message_id (edit_content "111" "hi")).
Proof.
  apply (proj1 (EditMessageSchema_reads_the_input
                  (demo_platform demo_webhook (Normal created))
                  [("message_id", JsStr "111"); ("content", JsStr "hi")]
                  (edit_content "111" "hi") eq_refl)).
Defined.

Lemma delete_schema_run :
  DeleteMessageSchema (JsObj [("message_id", JsStr "111")])
  = Some (delete_of "111").
Proof.
  apply (proj2 (DeleteMessageSchema_exactly
                  (JsObj [("message_id", JsStr "111")]) (delete_of "111"))).
  exists [("message_id", JsStr "111")].
  split; [reflexivity | split; [|split]].
  - intros k H. exact H.
  - reflexivity.
  - cbn. lia.
Defined.

Lemma send_body_run :
  obj_get JsUndefined (send_payload (only_content "hi")) "content"
  = obj_get JsUndefined [("content", JsStr "hi")] "content".
Proof.
  apply (proj1 (send_body_holds_the_input_fields
                  (demo_platform demo_webhook (Normal created))
                  [("content", JsStr "hi")] (only_content "hi") eq_refl)).
Defined.

Lemma empty_embeds_run :
  call_send_message (demo_platform demo_webhook (Normal created))
    (JsObj [("embeds", JsArr [])])
  = ([], Normal (Some (error_result MISSING_CONTENT))).
Proof.
  apply (proj1 (accepted_send_is_refused_without_content_and_embeds
                  (demo_platform demo_webhook (Normal created))
                  [("embeds", JsArr [])]
                  {| SendMessageInput.content := None;
                     SendMessageInput.username := None;
                     SendMessageInput.avatar_url := None;
                     SendMessageInput.tts := false;
                     SendMessageInput.embeds := Some [];
                     SendMessageInput.allowed_mentions := None;
                     SendMessageInput.thread_id := None;
                     SendMessageInput.thread_name := None |}
                  eq_refl)).
  - reflexivity.
  - right. reflexivity.
Defined.

Lemma legacy_missing_content_run :
  exists res,
    Legacy.callTool (demo_platform demo_webhook (Normal created)) no_issues
      "send_message" (JsObj [("embeds", JsArr [])])
    = ([], Normal res) /\
    isError res = Some true /\
    content res = [text_content ("エラー: " ++ Legacy.MISSING)] /\
    exists body,
      structuredContent res = Some body /\
      js_get_opt body "success" = JsBool false /\
      js_get_opt (js_get_opt body "error") "type" = JsStr "validation_error" /\
      js_get_opt (js_get_opt body "error") "field" = JsStr "content/embeds" /\
      js_get_opt (js_get_opt body "error") "message" = JsStr Legacy.MISSING.
Proof.
  apply (legacy_missing_content_is_a_validation_error
           (demo_platform demo_webhook (Normal created)) no_issues
           (JsObj [("embeds", JsArr [])]) legacy_nothing eq_refl).
  - left. reflexivity.
  - right. reflexivity.
Defined.

Lemma legacy_never_waits_run :
  requests
    (Legacy.callTool (demo_platform demo_webhook (Normal created)) no_issues
       "send_message"
       (JsObj [("content", JsStr "hi"); ("thread_id", JsStr "123")]))
  = [fetch_arguments demo_webhook POST (Some [("content", JsStr "hi")])].
Proof.
  apply (proj1 (legacy_send_never_waits
                  (demo_platform demo_webhook (Normal created)) no_issues
                  (JsObj [("content", JsStr "hi"); ("thread_id", JsStr "123")])
                  (legacy_threaded "hi" "123") (url_of demo_webhook)
                  eq_refl (or_introl eq_refl) eq_refl)).
Defined.


Lemma legacy_throws_run :
  completion
    (Legacy.callTool (demo_platform demo_webhook (Normal created)) no_issues
       "send_message" JsUndefined)
  = Throw (ErrorObj "ZodError" "[]").
Proof.
  apply (proj2 (legacy_throws_exactly
                  (demo_platform demo_webhook (Normal created)) no_issues
                  "send_message" JsUndefined (ErrorObj "ZodError" "[]"))).
  split; [reflexivity|]. left. split; reflexivity.
Defined.

Lemma legacy_schema_run :
  (forall s, Legacy.Parsed.content legacy_embedded = Some s ->
             (1 <= js_length s <= 2000)%N)
  /\ Legacy.Parsed.content legacy_embedded
     = string_of_js (js_get_opt legacy_embed_args "content")
  /\ Legacy.Parsed.thread_id legacy_embedded
     = string_of_js (js_get_opt legacy_embed_args "thread_id")
  /\ (forall l, Legacy.Parsed.embeds legacy_embedded = Some l ->
                (array_length l <= 10)%N)
  /\ (forall l e, Legacy.Parsed.embeds legacy_embedded = Some l -> In e l ->
        closed_shape ["title"; "url"; "description"; "timestamp"; "color";
                      "footer"; "image"; "thumbnail"; "author"; "fields"] e).
Proof.
  exact (legacy_schema_bounds_and_strips
           (demo_platform demo_webhook (Normal created)) legacy_embed_args
           legacy_embedded eq_refl).
Defined.

